(** * Tattoo stencil pipeline: src/utils/imageProcessing.ts, the segment
      export, pointer handling and zoom of
      src/components/SegmentationBoard.tsx, the history and reset of
      src/App.tsx and the presets of src/components/Sidebar.tsx

    The TypeScript sources compute on JavaScript numbers (IEEE-754 binary64),
    on [Float32Array] scratch buffers (binary32 storage) and on
    [Uint8ClampedArray] pixel buffers.  Numbers are embedded as Rocq's
    primitive binary64 floats, a store into a [Float32Array] as a rounding to
    binary32, pixel bytes and canvas dimensions as [Z]. *)

From Stdlib Require Import String Ascii DecimalString.
From Stdlib Require Import ZArith List Bool Lia Uint63 Floats.
From Stdlib Require DecimalN DecimalPos.
Import ListNotations.

Set Warnings "-inexact-float".

Local Open Scope Z_scope.

(** ** JavaScript numbers *)

Module Js.

(** [x !== x], the only numbers for which it holds are NaNs. *)
Definition isNaN (x : float) : bool := negb (PrimFloat.eqb x x).

(** The number of a non-negative integer below 2^63 (pixel bytes, loop
    counters, dimensions). *)
Definition ofZ (z : Z) : float := PrimFloat.of_uint63 (Uint63.of_Z z).

(** [Math.fround]: what reading back a [Float32Array] cell gives after a
    number was stored in it (round to nearest binary32, ties to even). *)
Definition fround (x : float) : float :=
  match Prim2SF x with
  | S754_finite s m e =>
      SF2Prim (binary_normalize 24 128 (if s then Z.neg m else Z.pos m) e s)
  | _ => x
  end.

(** [Math.max] and [Math.min] on two arguments: NaN is contagious and
    [+0] is larger than [-0]. *)
Definition max (a b : float) : float :=
  if isNaN a || isNaN b then nan
  else if PrimFloat.ltb a b then b
  else if PrimFloat.ltb b a then a
  else match PrimFloat.classify a with NZero => b | _ => a end.

Definition min (a b : float) : float :=
  if isNaN a || isNaN b then nan
  else if PrimFloat.ltb b a then b
  else if PrimFloat.ltb a b then a
  else match PrimFloat.classify a with PZero => b | _ => a end.

(** [Math.floor] as an integer; [None] for an infinity or a NaN, which
    [Math.floor] returns unchanged. *)
Definition floor (x : float) : option Z :=
  match Prim2SF x with
  | S754_zero _ => Some 0
  | S754_finite s m e =>
      Some (Z.shiftl (if s then Z.neg m else Z.pos m) e)
  | _ => None
  end.

(** The radius [r = Math.floor(x)] of a loop
    [for (d = -r; d <= r; d++)].  The loop ends only if the counter can step
    past [r]: [r] is finite and below 2^53 (from there on [d++] no longer
    changes [d]).  [None]: the loop does not end. *)
Definition loopRadius (x : float) : option Z :=
  match floor x with
  | Some r => if r <? 2 ^ 53 then Some r else None
  | None => None
  end.

(** [a > b] and [a < b] where [a] may be [undefined] (a read past the end of
    a typed array): every comparison with [undefined] is false. *)
Definition ltU (a : option Z) (k : Z) : bool :=
  match a with Some v => v <? k | None => false end.

Definition gtU (a : option Z) (k : Z) : bool :=
  match a with Some v => k <? v | None => false end.

End Js.

(** ** Typed arrays *)

Section TypedArray.
Context {A : Type}.

(** [arr[i]]: [None] is JavaScript's [undefined]. *)
Definition at_ (arr : list A) (i : Z) : option A :=
  if i <? 0 then None else nth_error arr (Z.to_nat i).

Fixpoint upd (n : nat) (v : A) (arr : list A) : list A :=
  match arr, n with
  | [], _ => []
  | _ :: t, O => v :: t
  | h :: t, S k => h :: upd k v t
  end.

(** [arr[i] = v]: a store outside the array is ignored. *)
Definition store (arr : list A) (i : Z) (v : A) : list A :=
  if i <? 0 then arr else upd (Z.to_nat i) v arr.
End TypedArray.

(** [for (let i = lo; i < hi; i++)] and [for (let i = lo; i <= hi; i++)]. *)
Definition zrange (lo hi : Z) : list Z :=
  map (fun k => lo + Z.of_nat k) (seq 0 (Z.to_nat (hi - lo))).

Definition zrange_incl (lo hi : Z) : list Z := zrange lo (hi + 1).

(** ** Data model *)

(** [ImageData]: [data] holds [width * height] RGBA quadruples of bytes. *)
Record ImageData := mkImageData {
  width : Z;
  height : Z;
  data : list Z
}.

Definition byte (v : Z) : Prop := 0 <= v <= 255.

(** The invariant the browser keeps for every [ImageData] object. *)
Definition wf_image (img : ImageData) : Prop :=
  0 < width img /\ 0 < height img /\
  Z.of_nat (length (data img)) = width img * height img * 4 /\
  Forall byte (data img).

(** [new ImageData(width, height)]: transparent black. *)
Definition blankImage (w h : Z) : ImageData :=
  mkImageData w h (repeat 0 (Z.to_nat (w * h * 4))).

(** ** analyzeThermalIssues *)

Module Thermal.

Definition isBlack (data : list Z) (idx : Z) : bool :=
  Js.ltU (at_ data idx) 50 && Js.gtU (at_ data (idx + 3)) 200.

(** The body of the two nested loops at pixel [(x, y)]; [outData] is the
    overlay written so far. *)
Definition visit (data : list Z) (width : Z) (outData : list Z) (y x : Z)
  : list Z :=
  let idx := (y * width + x) * 4 in
  if isBlack data idx then
    let density :=
      fold_left (fun d dy =>
        fold_left (fun d' dx =>
          if isBlack data (((y + dy) * width + (x + dx)) * 4)
          then d' + 1 else d') (zrange_incl (-1) 1) d)
        (zrange_incl (-1) 1) 0 in
    let r := at_ data idx in
    if Js.gtU r 100 && Js.ltU r 200 && Js.gtU (at_ data (idx + 3)) 200 then
      store (store (store (store outData idx 255) (idx + 1) 63)
               (idx + 2) 88) (idx + 3) 200
    else outData
  else outData.

Definition scan (data : list Z) (width height : Z) (outData : list Z)
  : list Z :=
  fold_left (fun out y =>
    fold_left (fun out' x => visit data width out' y x)
      (zrange 1 (width - 1)) out)
    (zrange 1 (height - 1)) outData.

(** [originalData] is a parameter of the source function and is never
    read. *)
Definition analyzeThermalIssues (originalData processedData : ImageData)
  : ImageData :=
  let w := width processedData in
  let h := height processedData in
  let output := blankImage w h in
  mkImageData w h (scan (data processedData) w h (data output)).

End Thermal.

(** ** processStencil *)

Inductive Mode := Edge | Threshold | Mixed.

(** [StencilSettings] of src/types.ts, without the fields only the user
    interface reads (activePreset, isAdvancedMode, overlayMode,
    overlayOpacity). *)
Record StencilSettings := mkSettings {
  contrast : float;
  brightness : float;
  edgeIntensity : float;
  thickness : float;
  detail : float;
  smoothing : float;
  mode : Mode;
  invert : bool;
  flipX : bool;
  lineColor : string;
  showThermalWarnings : bool
}.

Definition DEFAULT_SETTINGS : StencilSettings :=
  mkSettings 10 0 80 2 30 2 Edge false false "#000000" false.

Record RGB := mkRGB { red : Z; green : Z; blue : Z }.

Record StencilResult := mkResult {
  processed : ImageData;
  thermalWarnings : option ImageData
}.

Module Stencil.

(** One character of the class [[a-f\d]] under the [i] flag. *)
Definition hexDigit (c : ascii) : option Z :=
  let n := Z.of_N (N_of_ascii c) in
  if (48 <=? n) && (n <=? 57) then Some (n - 48)
  else if (97 <=? n) && (n <=? 102) then Some (n - 87)
  else if (65 <=? n) && (n <=? 70) then Some (n - 55)
  else None.

(** The regular expression accepts an optional [#] and then exactly six
    hexadecimal digits; everything else gives black. *)
Definition hexToRgb (hex : string) : RGB :=
  let body := match hex with String "#"%char rest => rest | _ => hex end in
  match map hexDigit (list_ascii_of_string body) with
  | [Some a; Some b; Some c; Some d; Some e; Some f] =>
      mkRGB (16 * a + b) (16 * c + d) (16 * e + f)
  | _ => mkRGB 0 0 0
  end.

Definition contrastFactor (settings : StencilSettings) : float :=
  ((259 * (contrast settings + 255)) / (255 * (259 - contrast settings)))%float.

Definition getLum (r g b : float) : float :=
  (0.299 * r + 0.587 * g + 0.114 * b)%float.

(** A read of a [Float32Array] cell used in arithmetic or in a comparison:
    [undefined] behaves as NaN there. *)
Definition getF (buf : list float) (i : Z) : float :=
  match at_ buf i with Some v => v | None => nan end.

(** A read of a byte that is stored into a [Uint8ClampedArray]:
    [undefined] is stored as 0. *)
Definition getB (buf : list Z) (i : Z) : Z :=
  match at_ buf i with Some v => v | None => 0 end.

(** The pixels [(y, x)] in the order of
    [for (y = 0; y < height; y++) for (x = 0; x < width; x++)]. *)
Definition pixels (w h : Z) : list (Z * Z) :=
  flat_map (fun y => map (fun x => (y, x)) (zrange 0 w)) (zrange 0 h).

Definition inBounds (w h ny nx : Z) : bool :=
  (0 <=? ny) && (ny <? h) && (0 <=? nx) && (nx <? w).

(** *** Pass 1: contrast, brightness, luminance *)

Definition adjust (cf br : float) (c : Z) : float :=
  Js.max 0 (Js.min 255 (cf * (Js.ofZ c - 128) + 128 + br))%float.

Fixpoint grayscale (cf br : float) (data : list Z) : list float :=
  match data with
  | r :: g :: b :: _ :: rest =>
      Js.fround (getLum (adjust cf br r) (adjust cf br g) (adjust cf br b))
      :: grayscale cf br rest
  | _ => []
  end.

(** *** Pass 2: box blur *)

Definition blurAt (grayBuffer : list float) (w h blurRadius y x : Z)
  : float :=
  let '(sum, count) :=
    fold_left (fun acc by_ =>
      fold_left (fun '(sum, count) bx =>
        let ny := y + by_ in
        let nx := x + bx in
        if inBounds w h ny nx
        then ((sum + getF grayBuffer (ny * w + nx))%float, count + 1)
        else (sum, count))
        (zrange_incl (- blurRadius) blurRadius) acc)
      (zrange_incl (- blurRadius) blurRadius) (0%float, 0) in
  Js.fround (sum / Js.ofZ count)%float.

Definition smooth (settings : StencilSettings) (w h : Z)
    (grayBuffer : list float) : option (list float) :=
  if (0 <? smoothing settings)%float then
    match Js.loopRadius (smoothing settings) with
    | Some blurRadius =>
        Some (map (fun '(y, x) => blurAt grayBuffer w h blurRadius y x)
                (pixels w h))
    | None => None
    end
  else Some grayBuffer.

(** *** Pass 3: Sobel magnitude and dilation *)

Definition sobelAt (grayBuffer : list float) (w : Z) (edgeIntensity : float)
    (y x : Z) : float :=
  let g := fun yy xx => getF grayBuffer (yy * w + xx) in
  let nw := g (y - 1) (x - 1) in
  let n := g (y - 1) x in
  let ne := g (y - 1) (x + 1) in
  let west := g y (x - 1) in
  let east := g y (x + 1) in
  let sw := g (y + 1) (x - 1) in
  let south := g (y + 1) x in
  let se := g (y + 1) (x + 1) in
  let gx := ((-1) * nw + 1 * ne + (-2) * west + 2 * east
             + (-1) * sw + 1 * se)%float in
  let gy := ((-1) * nw + (-2) * n + (-1) * ne
             + 1 * sw + 2 * south + 1 * se)%float in
  let magnitude := PrimFloat.sqrt (gx * gx + gy * gy)%float in
  (magnitude * (edgeIntensity / 20))%float.

Definition sobel (settings : StencilSettings) (w h : Z)
    (grayBuffer : list float) : list float :=
  map (fun '(y, x) =>
         if (1 <=? y) && (y <? h - 1) && (1 <=? x) && (x <? w - 1)
         then Js.fround (sobelAt grayBuffer w (edgeIntensity settings) y x)
         else 0%float)
      (pixels w h).

Definition dilateAt (outputGray : list float) (w h radius y x : Z) : float :=
  let maxVal :=
    fold_left (fun acc dy =>
      fold_left (fun maxVal dx =>
        let ny := y + dy in
        let nx := x + dx in
        if inBounds w h ny nx
        then Js.max maxVal (getF outputGray (ny * w + nx))
        else maxVal)
        (zrange_incl (- radius) radius) acc)
      (zrange_incl (- radius) radius) 0%float in
  Js.fround maxVal.

Definition dilate (settings : StencilSettings) (w h : Z)
    (outputGray : list float) : option (list float) :=
  if (1 <? thickness settings)%float then
    match Js.loopRadius (thickness settings / 2)%float with
    | Some radius =>
        Some (map (fun '(y, x) => dilateAt outputGray w h radius y x)
                (pixels w h))
    | None => None
    end
  else Some outputGray.

(** *** Line decision and painting *)

Definition threshold (settings : StencilSettings) : float :=
  (detail settings * 2.55)%float.

(** The value of [isLine] just before [if (settings.invert)], in the
    edge/mixed branch and in the threshold branch. *)
Definition edgeIsLine (settings : StencilSettings)
    (dilatedGray grayBuffer : list float) (i : Z) : bool :=
  let val := getF dilatedGray i in
  let isLine := (threshold settings <? val)%float in
  match mode settings with
  | Mixed =>
      let originalVal :=
        if (128 <? getF grayBuffer i)%float then false else true in
      isLine || originalVal
  | _ => isLine
  end.

Definition thresholdIsLine (settings : StencilSettings)
    (grayBuffer : list float) (i : Z) : bool :=
  let val := getF grayBuffer i in
  (val <? threshold settings)%float.

Definition applyInvert (settings : StencilSettings) (isLine : bool) : bool :=
  if invert settings then negb isLine else isLine.

Definition paint (lineRGB : RGB) (isLine : bool) : list Z :=
  if isLine then [red lineRGB; green lineRGB; blue lineRGB; 255]
  else [255; 255; 255; 255].

(** [isLine] before the invert step for every pixel index, [None] when
    the dilation loop does not terminate. *)
Definition lineMask (settings : StencilSettings) (w h : Z)
    (grayBuffer : list float) : option (list bool) :=
  match mode settings with
  | Threshold =>
      Some (map (thresholdIsLine settings grayBuffer) (zrange 0 (w * h)))
  | _ =>
      match dilate settings w h (sobel settings w h grayBuffer) with
      | Some dilatedGray =>
          Some (map (edgeIsLine settings dilatedGray grayBuffer)
                  (zrange 0 (w * h)))
      | None => None
      end
  end.

Definition composite (settings : StencilSettings) (mask : list bool)
  : list Z :=
  flat_map (fun isLine =>
              paint (hexToRgb (lineColor settings))
                    (applyInvert settings isLine)) mask.

(** *** Final copy with the optional mirror *)

Definition render (flipX : bool) (w h : Z) (finalBuffer : list Z) : list Z :=
  flat_map (fun '(y, x) =>
              let readX := if flipX then w - 1 - x else x in
              let readIdx := (y * w + readX) * 4 in
              [getB finalBuffer readIdx; getB finalBuffer (readIdx + 1);
               getB finalBuffer (readIdx + 2); getB finalBuffer (readIdx + 3)])
           (pixels w h).

(** [{...settings, flipX}], [{...settings, invert}] and
    [{...settings, detail}]. *)
Definition setFlipX (b : bool) (s : StencilSettings) : StencilSettings :=
  mkSettings (contrast s) (brightness s) (edgeIntensity s) (thickness s)
    (detail s) (smoothing s) (mode s) (invert s) b (lineColor s)
    (showThermalWarnings s).

Definition setInvert (b : bool) (s : StencilSettings) : StencilSettings :=
  mkSettings (contrast s) (brightness s) (edgeIntensity s) (thickness s)
    (detail s) (smoothing s) (mode s) b (flipX s) (lineColor s)
    (showThermalWarnings s).

Definition setDetail (d : float) (s : StencilSettings) : StencilSettings :=
  mkSettings (contrast s) (brightness s) (edgeIntensity s) (thickness s)
    d (smoothing s) (mode s) (invert s) (flipX s) (lineColor s)
    (showThermalWarnings s).

(** The smoothed luminance buffer the line decision reads. *)
Definition grayBufferOf (imageData : ImageData) (settings : StencilSettings)
  : option (list float) :=
  smooth settings (width imageData) (height imageData)
    (grayscale (contrastFactor settings) (brightness settings)
       (data imageData)).

(** [None]: the call does not return (a blur or dilation loop that does
    not end). *)
Definition processStencil (imageData : ImageData)
    (settings : StencilSettings) : option StencilResult :=
  let w := width imageData in
  let h := height imageData in
  match grayBufferOf imageData settings with
  | None => None
  | Some grayBuffer =>
      match lineMask settings w h grayBuffer with
      | None => None
      | Some mask =>
          let finalBuffer := composite settings mask in
          let output :=
            mkImageData w h (render (flipX settings) w h finalBuffer) in
          let warnings :=
            if showThermalWarnings settings
            then Some (Thermal.analyzeThermalIssues imageData output)
            else None in
          Some (mkResult output warnings)
      end
  end.

(** The value of [isLine] that is painted, for every pixel index, and the
    number of pixels painted as lines. *)
Definition classify (imageData : ImageData) (settings : StencilSettings)
  : option (list bool) :=
  match grayBufferOf imageData settings with
  | None => None
  | Some grayBuffer =>
      option_map (map (applyInvert settings))
        (lineMask settings (width imageData) (height imageData) grayBuffer)
  end.

Definition lineCount (imageData : ImageData) (settings : StencilSettings)
  : option nat :=
  option_map (fun isLine => count_occ bool_dec isLine true)
    (classify imageData settings).

(** The loops of the blur and of the dilation terminate. *)
Definition blurReturns (settings : StencilSettings) : bool :=
  if (0 <? smoothing settings)%float
  then match Js.loopRadius (smoothing settings) with
       | Some _ => true | None => false end
  else true.

Definition dilateReturns (settings : StencilSettings) : bool :=
  match mode settings with
  | Threshold => true
  | _ =>
      if (1 <? thickness settings)%float
      then match Js.loopRadius (thickness settings / 2)%float with
           | Some _ => true | None => false end
      else true
  end.

End Stencil.

(** ** segmentImage *)

Record HTMLCanvasElement := mkCanvas {
  canvasWidth : Z;
  canvasHeight : Z;
  (** whether [getContext('2d')] gives a context *)
  has2d : bool
}.

(** The exceptions of the canvas API that the modelled calls raise. *)
Inductive DOMException := InvalidStateError | IndexSizeError.

(** One entry of [parts]: the source rectangle [drawImage] copies into the
    part canvas (the canvas is given the rectangle's size) and the strokes
    of the registration marks, each a pair of end points in part
    coordinates. *)
Record Part := mkPart {
  partX : Z;
  partY : Z;
  partW : Z;
  partH : Z;
  marks : list ((Z * Z) * (Z * Z))
}.

(** How a call of [segmentImage] ends: it returns [parts], or a call of
    [drawImage] throws; [createdW] and [createdH] are the size given to the
    part canvas that had been created and filled for that call. *)
Inductive SegmentOutcome :=
  | Returned (parts : list Part)
  | Threw (error : DOMException) (createdW createdH : Z).

Module Segment.

Definition overlap : Z := 50.
Definition markSize : Z := 10.

(** [Math.ceil(a / b)] for a dimension [a >= 0] and a count [b >= 1].  With
    [b <= 0] no loop body runs and the value is never read. *)
Definition ceilDiv (a b : Z) : Z := - ((- a) / b).

Definition part (width height rows cols : Z) (r c : Z) : Part :=
  let segmentWidth := ceilDiv width cols in
  let segmentHeight := ceilDiv height rows in
  let x := Z.max 0 (c * segmentWidth - (if 0 <? c then overlap else 0)) in
  let y := Z.max 0 (r * segmentHeight - (if 0 <? r then overlap else 0)) in
  let w := Z.min (width - x)
             (segmentWidth + (if 0 <? c then overlap else 0)
              + (if c <? cols - 1 then overlap else 0)) in
  let h := Z.min (height - y)
             (segmentHeight + (if 0 <? r then overlap else 0)
              + (if r <? rows - 1 then overlap else 0)) in
  let topLeft :=
    if (0 <? c) || (0 <? r)
    then [((markSize, 0), (markSize, markSize * 2));
          ((0, markSize), (markSize * 2, markSize))]
    else [] in
  let bottomRight :=
    [((w - markSize, h - markSize * 2), (w - markSize, h));
     ((w - markSize * 2, h - markSize), (w, h - markSize))] in
  mkPart x y w h (topLeft ++ bottomRight).

(** Every part canvas is taken to have a 2D context.
    [drawImage(sourceCanvas, ...)] throws an [InvalidStateError] when the
    source canvas has width or height 0; the first call is the one for the
    part [(0, 0)], made once its canvas exists. *)
Definition segmentImage (sourceCanvas : HTMLCanvasElement) (rows cols : Z)
  : SegmentOutcome :=
  let width := canvasWidth sourceCanvas in
  let height := canvasHeight sourceCanvas in
  if negb (has2d sourceCanvas) then Returned []
  else if (0 <? rows) && (0 <? cols) && ((width =? 0) || (height =? 0))
  then
    let first := part width height rows cols 0 0 in
    Threw InvalidStateError (partW first) (partH first)
  else
    Returned
      (flat_map (fun r => map (fun c => part width height rows cols r c)
                            (zrange 0 cols))
                (zrange 0 rows)).

(** The bands a part adds around its grid cell: [overlap] columns before
    the cell when it is not in the first column, [overlap] columns after
    it when it is not in the last one, and likewise for rows. *)
Definition inLeadingBand (size count k p : Z) : bool :=
  (0 <? k) && (k * ceilDiv size count - overlap <=? p)
  && (p <? k * ceilDiv size count).

Definition inTrailingBand (size count k p : Z) : bool :=
  (k <? count - 1) && ((k + 1) * ceilDiv size count <=? p)
  && (p <? (k + 1) * ceilDiv size count + overlap).

Definition inRect (pt : Part) (px py : Z) : bool :=
  (partX pt <=? px) && (px <? partX pt + partW pt)
  && (partY pt <=? py) && (py <? partY pt + partH pt).

(** A point of the source rectangle of part [(r, c)] outside its overlap
    bands. *)
Definition inCore (width height rows cols r c px py : Z) : bool :=
  inRect (part width height rows cols r c) px py
  && negb (inLeadingBand width cols c px)
  && negb (inTrailingBand width cols c px)
  && negb (inLeadingBand height rows r py)
  && negb (inTrailingBand height rows r py).

End Segment.

(** ** Segment export of SegmentationBoard *)

Inductive BoardMode := tabloid | poster_2x2.
Inductive SplitMode := vertical | horizontal | quadrant.

(** An entry of [BOARDS], without its display name. *)
Record Board := mkBoard { widthCm : float; heightCm : float }.

(** One call of [crop(x, y, w, h, suffix)]. *)
Record CropCall := mkCrop {
  cropX : float;
  cropY : float;
  cropW : float;
  cropH : float;
  suffix : string
}.

(** An entry of [segments]: the canvas content that [toDataURL] encodes and
    the download name. *)
Record SegmentFile := mkSegmentFile {
  content : list Z;
  fileName : string
}.

Inductive ExportOutcome :=
  | NoContext
  | Alerted (message : string)
  | Downloaded (files : list SegmentFile).

Module BoardExport.

Definition SCREEN_DPI : float := 96.
Definition EXPORT_DPI : float := 300.
Definition CM_TO_PX : float := (SCREEN_DPI / 2.54)%float.

Definition BOARDS (m : BoardMode) : Board :=
  match m with
  | tabloid => mkBoard 27.94 43.18
  | poster_2x2 => mkBoard 43.18 55.88
  end.

Definition BOARD_WIDTH (m : BoardMode) : float :=
  (widthCm (BOARDS m) * CM_TO_PX)%float.
Definition BOARD_HEIGHT (m : BoardMode) : float :=
  (heightCm (BOARDS m) * CM_TO_PX)%float.


(** The decimal digits of a template literal [${n}] for a count [n]. *)
Definition decimal (n : Z) : string :=
  NilZero.string_of_uint (N.to_uint (Z.to_N n)).

Definition cropCalls (boardMode : BoardMode) (splitMode : SplitMode)
    (parts : Z) : list CropCall :=
  let activeSplitMode :=
    match boardMode with poster_2x2 => quadrant | _ => splitMode end in
  match activeSplitMode with
  | quadrant =>
      let w := (BOARD_WIDTH boardMode / 2)%float in
      let h := (BOARD_HEIGHT boardMode / 2)%float in
      [mkCrop 0 0 w h "1_TopLeft"; mkCrop w 0 w h "2_TopRight";
       mkCrop 0 h w h "3_BottomLeft"; mkCrop w h w h "4_BottomRight"]
  | vertical =>
      let w := (BOARD_WIDTH boardMode / Js.ofZ parts)%float in
      map (fun i => mkCrop (Js.ofZ i * w)%float 0 w (BOARD_HEIGHT boardMode)
                      (decimal (i + 1)))
          (zrange 0 parts)
  | horizontal =>
      let h := (BOARD_HEIGHT boardMode / Js.ofZ parts)%float in
      map (fun i => mkCrop 0 (Js.ofZ i * h)%float (BOARD_WIDTH boardMode) h
                      (decimal (i + 1)))
          (zrange 0 parts)
  end.

(** The offsets [0, 100, 200, ...] below [len] that the scan visits. *)
Definition sampleOffsets (len : Z) : list Z :=
  map (fun k => 100 * k) (zrange 0 ((len + 99) / 100)).

Definition nonWhiteAt (data : list Z) (i : Z) : bool :=
  Js.ltU (at_ data i) 250 || Js.ltU (at_ data (i + 1)) 250
  || Js.ltU (at_ data (i + 2)) 250.

(** The scan leaves the loop at the first sample that is not white. *)
Definition hasContent (data : list Z) : bool :=
  existsb (nonWhiteAt data) (sampleOffsets (Z.of_nat (length data))).

(** The text of the [alert] for an export without segments. *)
Definition noContentMessage : string :=
  "No active segments found. Place the image within the board area.".

(** [EXPORT_DPI / SCREEN_DPI]: board pixels to export pixels. *)
Definition exportScale : float := (EXPORT_DPI / SCREEN_DPI)%float.

(** The integer part of a number, towards zero; [None] for an infinity or
    a NaN. *)
Definition integerPart (x : float) : option Z :=
  match Js.floor (PrimFloat.abs x) with
  | Some n => Some (if (x <? 0)%float then - n else n)
  | None => None
  end.

(** [getImageData(0, 0, finalW, finalH)], for sizes below 2^31: the sizes
    are converted to integers towards zero, and the call throws an
    [IndexSizeError] when one of them is 0, that is when the crop is less
    than one export pixel wide or high.  It throws as well when a size is
    an infinity or a NaN. *)
Definition readThrows (call : CropCall) : bool :=
  match integerPart (cropW call * exportScale),
        integerPart (cropH call * exportScale) with
  | Some finalW, Some finalH => (finalW =? 0) || (finalH =? 0)
  | _, _ => true
  end.

Section Canvas.
(** What [getImageData] reads back from the temporary canvas of a crop
    after the white fill and the copy from the board canvas, for a crop of
    at least one export pixel each way ([readThrows] false, as for the 2, 3
    or 4 parts the application passes); [None] when the temporary canvas
    has no 2D context. *)
Variable readBack : CropCall -> option (list Z).

(** The segments one call of [crop] pushes. *)
Definition crop (call : CropCall) : list SegmentFile :=
  match readBack call with
  | Some data =>
      if hasContent data
      then [mkSegmentFile data ("Segment_" ++ suffix call ++ ".png")]
      else []
  | None => []
  end.

Definition segmentsOf (boardMode : BoardMode) (splitMode : SplitMode)
    (parts : Z) : list SegmentFile :=
  flat_map crop (cropCalls boardMode splitMode parts).

(** [offCtx]: whether the board canvas has a 2D context. *)
Definition performExport (offCtx : bool) (boardMode : BoardMode)
    (splitMode : SplitMode) (parts : Z) : ExportOutcome :=
  if negb offCtx then NoContext
  else
    match segmentsOf boardMode splitMode parts with
    | [] => Alerted noContentMessage
    | segments => Downloaded segments
    end.
End Canvas.

End BoardExport.

(** ** The specification's wording of three criteria

    These follow the sentences of the specification, not the source; the
    properties below compare them with the functions above. *)

Module Worded.
Import Stencil.

(** Section 4.7, mixed mode:
    [(dilatedMagnitude > detail*2.55) OR (L < 128)]. *)
Definition mixedIsLine (settings : StencilSettings)
    (dilatedGray grayBuffer : list float) (i : Z) : bool :=
  (threshold settings <? getF dilatedGray i)%float
  || (getF grayBuffer i <? 128)%float.

(** Section 4.8: pixel [i] of the final buffer is a black line pixel
    (luminance below 50, alpha above 200) and the original pixel has its
    red channel in [[100,200)] and alpha above 200. *)
Definition riskFlag (original final : ImageData) (i : Z) : bool :=
  let px := fun (img : ImageData) k => getB (data img) (i * 4 + k) in
  let lum := getLum (Js.ofZ (px final 0)) (Js.ofZ (px final 1))
               (Js.ofZ (px final 2)) in
  (lum <? 50)%float
  && (200 <? px final 3)
  && (100 <=? px original 0) && (px original 0 <? 200)
  && (200 <? px original 3).

(** Sections 3 and 7: every numeric field brought into its documented
    range. *)
Definition clampTo (lo hi x : float) : float :=
  if (x <? lo)%float then lo else if (hi <? x)%float then hi else x.

Definition clampSettings (s : StencilSettings) : StencilSettings :=
  mkSettings (clampTo (-100) 100 (contrast s))
    (clampTo (-100) 100 (brightness s))
    (clampTo 0 200 (edgeIntensity s))
    (clampTo 1 10 (thickness s))
    (clampTo 0 100 (detail s))
    (clampTo 0 10 (smoothing s))
    (mode s) (invert s) (flipX s) (lineColor s) (showThermalWarnings s).

Definition within (lo hi x : float) : bool :=
  ((lo <=? x) && (x <=? hi))%float.

Definition inRange (s : StencilSettings) : bool :=
  within (-100) 100 (contrast s) && within (-100) 100 (brightness s)
  && within 0 200 (edgeIntensity s) && within 1 10 (thickness s)
  && within 0 100 (detail s) && within 0 10 (smoothing s).

(** The numeric fields with a documented range. *)
Inductive Field :=
  | Contrast | Brightness | EdgeIntensity | Thickness | Detail | Smoothing.

Definition fieldWithin (f : Field) (s : StencilSettings) : bool :=
  match f with
  | Contrast => within (-100) 100 (contrast s)
  | Brightness => within (-100) 100 (brightness s)
  | EdgeIntensity => within 0 200 (edgeIntensity s)
  | Thickness => within 1 10 (thickness s)
  | Detail => within 0 100 (detail s)
  | Smoothing => within 0 10 (smoothing s)
  end.

Definition sameField (f g : Field) : bool :=
  match f, g with
  | Contrast, Contrast | Brightness, Brightness
  | EdgeIntensity, EdgeIntensity | Thickness, Thickness
  | Detail, Detail | Smoothing, Smoothing => true
  | _, _ => false
  end.

(** Field [f] is outside its range and every other field inside its own. *)
Definition onlyOutside (f : Field) (s : StencilSettings) : bool :=
  forallb (fun g => if sameField g f then negb (fieldWithin g s)
                    else fieldWithin g s)
    [Contrast; Brightness; EdgeIntensity; Thickness; Detail; Smoothing].

End Worded.

(** ** Inputs of the scenarios *)

Module Scenario.

(** A [w] x [h] image with every pixel [(v, v, v, 255)]. *)
Definition uniform (w h v : Z) : ImageData :=
  mkImageData w h (concat (repeat [v; v; v; 255] (Z.to_nat (w * h)))).

(** Scenario 1 of the specification: contrast 0, brightness 0, threshold
    mode, detail 50, nothing inverted; the other fields are free. *)
Definition scenario1 (edgeIntensity thickness smoothing : float)
    (flipX : bool) (lineColor : string) (showThermalWarnings : bool)
  : StencilSettings :=
  mkSettings 0 0 edgeIntensity thickness 50 smoothing Threshold false flipX
    lineColor showThermalWarnings.

(** The defaults in mixed mode with detail 50. *)
Definition mixed50 : StencilSettings :=
  mkSettings 10 0 80 2 50 2 Mixed false false "#000000" false.

(** Threshold mode without blur, thermal warnings shown. *)
Definition thresholdWarn (detail : float) (invert : bool) : StencilSettings :=
  mkSettings 0 0 80 2 detail 0 Threshold invert false "#000000" true.

(** An opaque gray image given by the gray value of each pixel. *)
Definition grays (w h : Z) (values : list Z) : ImageData :=
  mkImageData w h (flat_map (fun v => [v; v; v; 255]) values).

(** For each numeric field an image and Settings with that field alone
    outside its documented range. *)
Definition outOfRange (f : Worded.Field) : ImageData * StencilSettings :=
  match f with
  | Worded.Contrast =>
      (grays 1 1 [140],
       mkSettings 200 0 80 1 70 0 Threshold false false "#000000" false)
  | Worded.Brightness =>
      (grays 1 1 [50],
       mkSettings 0 200 80 1 70 0 Threshold false false "#000000" false)
  | Worded.EdgeIntensity =>
      (grays 3 3 [100; 100; 101; 100; 100; 101; 100; 100; 101],
       mkSettings 0 0 400 1 20 0 Edge false false "#000000" false)
  | Worded.Thickness =>
      (grays 8 3 [0; 255; 255; 255; 255; 255; 255; 255;
                  0; 255; 255; 255; 255; 255; 255; 255;
                  0; 255; 255; 255; 255; 255; 255; 255],
       mkSettings 0 0 80 12 50 0 Edge false false "#000000" false)
  | Worded.Detail =>
      (grays 1 1 [255],
       mkSettings 0 0 80 1 150 0 Threshold false false "#000000" false)
  | Worded.Smoothing =>
      (grays 12 1 [255; 255; 255; 255; 255; 255; 255; 255; 255; 255; 255; 0],
       mkSettings 0 0 80 1 95 11 Threshold false false "#000000" false)
  end.

End Scenario.

(** ** Rounding to binary64, in integers

    Vocabulary for the properties of [binary_round_aux], the function that
    specifies the rounding of a binary64 product. *)

Module Round64.

(** [2 * M = 2 ^ n * (2 * q + bit) + lo]: [q] is [M] shifted right by [n],
    [bit] the last bit shifted out and [lo] what was shifted out before. *)
Definition shifted (M n q bit lo : Z) : Prop :=
  2 * M = 2 ^ n * (2 * q + bit) + lo
  /\ 0 <= lo < 2 ^ n /\ 0 <= bit <= 1 /\ 0 <= q.

Definition recordOf (q bit lo : Z) : shr_record :=
  Build_shr_record q (bit =? 1) (negb (lo =? 0)).

(** The mantissa after rounding to nearest, ties to even. *)
Definition rne (q bit lo : Z) : Z :=
  if (bit =? 1) && (negb (lo =? 0) || Z.odd q) then q + 1 else q.

(** The binary64 number of a rounded mantissa [q <= 2 ^ 53] at exponent
    [G]. *)
Definition pack (q G : Z) : spec_float :=
  if q =? 0 then S754_zero false
  else if q =? 2 ^ 53 then
    if G + 1 <=? 971 then S754_finite false (Z.to_pos (2 ^ 52)) (G + 1)
    else S754_infinity false
  else if G <=? 971 then S754_finite false (Z.to_pos q) G
  else S754_infinity false.

Definition fexp64 (e : Z) : Z := Z.max (e - 53) (-1074).

Definition round64 (M : positive) (E : Z) : spec_float :=
  binary_round_aux 53 1024 false (Zpos M) E loc_Exact.

Definition nonNegative (r : spec_float) : Prop :=
  r = S754_zero false \/ r = S754_infinity false
  \/ exists m e, r = S754_finite false m e.

End Round64.

(** ** Views of the pipeline used by further properties *)

Module StencilView.
Import Stencil.

(** [{...settings, mode}]. *)
Definition setMode (m : Mode) (s : StencilSettings) : StencilSettings :=
  mkSettings (contrast s) (brightness s) (edgeIntensity s) (thickness s)
    (detail s) (smoothing s) m (invert s) (flipX s) (lineColor s)
    (showThermalWarnings s).

(** [{...settings, thickness}] and [{...settings, edgeIntensity}]. *)
Definition setThickness (t : float) (s : StencilSettings)
  : StencilSettings :=
  mkSettings (contrast s) (brightness s) (edgeIntensity s) t
    (detail s) (smoothing s) (mode s) (invert s) (flipX s) (lineColor s)
    (showThermalWarnings s).

Definition setEdgeIntensity (e : float) (s : StencilSettings)
  : StencilSettings :=
  mkSettings (contrast s) (brightness s) e (thickness s)
    (detail s) (smoothing s) (mode s) (invert s) (flipX s) (lineColor s)
    (showThermalWarnings s).

(** The four bytes of pixel [i] of a buffer. *)
Definition pixelOf (buf : list Z) (i : Z) : list Z :=
  map (fun k => getB buf (i * 4 + k)) (zrange 0 4).

Definition whitePixel : list Z := [255; 255; 255; 255].

(** The colour [hexToRgb] falls back to. *)
Definition black : RGB := mkRGB 0 0 0.

Definition linePixel (s : StencilSettings) : list Z :=
  let lineRGB := hexToRgb (lineColor s) in
  [red lineRGB; green lineRGB; blue lineRGB; 255].

(** Two pixel buffers that agree on every red, green and blue byte. *)
Inductive SameRGB : list Z -> list Z -> Prop :=
  | SameRGB_nil : SameRGB [] []
  | SameRGB_pixel r g b a1 a2 rest1 rest2 :
      SameRGB rest1 rest2 ->
      SameRGB (r :: g :: b :: a1 :: rest1) (r :: g :: b :: a2 :: rest2).

End StencilView.

(** ** Pointer interaction and view zoom of SegmentationBoard *)

Module Pointer.

(** [transform]: where the image sits on the board. *)
Record Transform := mkTransform {
  tx : float;
  ty : float;
  scale : float;
  rotation : float
}.

(** [cropRect], in board coordinates. *)
Record CropRect := mkCropRect {
  rx : float;
  ry : float;
  rw : float;
  rh : float
}.

Inductive DragMode :=
  | move | rotate | scale_tl | scale_tr | scale_bl | scale_br | draw_crop.

(** The state [handlePointerMove] reads and writes. *)
Record BoardState := mkBoardState {
  isDragging : bool;
  mode : DragMode;
  transform : Transform;
  startTransform : Transform;
  dragStart : float * float;
  startCrop : float * float;
  cropRect : option CropRect;
  viewZoom : float
}.

Definition startsWithScale (m : DragMode) : bool :=
  match m with
  | scale_tl | scale_tr | scale_bl | scale_br => true
  | _ => false
  end.

Definition PI : float := 3.141592653589793.

Section Moves.
(** [Math.atan2]. *)
Variable atan2 : float -> float -> float.

(** [handlePointerMove(clientX, clientY)] with the canvas mounted;
    [rectLeft], [rectTop] are the canvas' bounding rectangle and
    [imageWidth], [imageHeight] the size of the loaded image. *)
Definition handlePointerMove (st : BoardState) (rectLeft rectTop : float)
    (imageWidth imageHeight : Z) (clientX clientY : float) : BoardState :=
  if negb (isDragging st) then st
  else
    let x := ((clientX - rectLeft) / viewZoom st)%float in
    let y := ((clientY - rectTop) / viewZoom st)%float in
    let setTransform := fun t =>
      mkBoardState (isDragging st) (mode st) t (startTransform st)
        (dragStart st) (startCrop st) (cropRect st) (viewZoom st) in
    let prev := transform st in
    match mode st with
    | draw_crop =>
        let w := (x - fst (startCrop st))%float in
        let h := (y - snd (startCrop st))%float in
        mkBoardState (isDragging st) (mode st) (transform st)
          (startTransform st) (dragStart st) (startCrop st)
          (Some (mkCropRect
                   (if (w <? 0)%float then x else fst (startCrop st))
                   (if (h <? 0)%float then y else snd (startCrop st))
                   (PrimFloat.abs w) (PrimFloat.abs h)))
          (viewZoom st)
    | move =>
        let dx := (x - fst (dragStart st))%float in
        let dy := (y - snd (dragStart st))%float in
        setTransform
          (mkTransform (tx (startTransform st) + dx)%float
             (ty (startTransform st) + dy)%float (scale prev) (rotation prev))
    | rotate =>
        let angle := atan2 (y - ty prev)%float (x - tx prev)%float in
        setTransform
          (mkTransform (tx prev) (ty prev) (scale prev) (angle + PI / 2)%float)
    | _ =>
        let dx := (x - tx prev)%float in
        let dy := (y - ty prev)%float in
        let dist := PrimFloat.sqrt (dx * dx + dy * dy)%float in
        let iw := Js.ofZ imageWidth in
        let ih := Js.ofZ imageHeight in
        let baseDiag := (PrimFloat.sqrt (iw * iw + ih * ih) / 2)%float in
        let newScale := (dist / baseDiag)%float in
        setTransform
          (mkTransform (tx prev) (ty prev) (Js.max 0.1 newScale)
             (rotation prev))
    end.
End Moves.

(** The two zoom buttons: [setViewZoom(z => Math.max(0.2, z - 0.1))] and
    [setViewZoom(z => Math.min(2, z + 0.1))]; the zoom starts at 0.6. *)
Definition zoomOut (z : float) : float := Js.max 0.2 (z - 0.1)%float.
Definition zoomIn (z : float) : float := Js.min 2 (z + 0.1)%float.
Definition initialZoom : float := 0.6.

(** The zoom values some sequence of clicks reaches. *)
Inductive reachableZoom : float -> Prop :=
  | zoom_initial : reachableZoom initialZoom
  | zoom_out z : reachableZoom z -> reachableZoom (zoomOut z)
  | zoom_in z : reachableZoom z -> reachableZoom (zoomIn z).

(** Every value of the zoom that the buttons can produce from 0.6. *)
Definition zoomLevels : list float :=
  [0.20000000000000004; 0.5; 0.40000000000000002; 0.30000000000000004;
   0.20000000000000001; 0.29999999999999938; 0.39999999999999936;
   0.49999999999999933; 0.59999999999999931; 0.69999999999999929;
   0.79999999999999927; 0.89999999999999925; 0.99999999999999922;
   1.0999999999999992; 1.1999999999999993; 1.2999999999999994;
   1.3999999999999995; 1.4999999999999996; 1.5999999999999996;
   1.6999999999999997; 1.7999999999999998; 1.8999999999999999; 2;
   1.9000000000000006; 1.8000000000000005; 1.7000000000000004;
   1.6000000000000003; 1.5000000000000002; 1.4000000000000001; 1.3; 1.2;
   1.0999999999999999; 0.99999999999999989; 0.89999999999999991;
   0.79999999999999993; 0.69999999999999996; 0.59999999999999998]%float.

(** [Math.round]: the nearest integer, a tie going up; [None] for an
    infinity or a NaN, which [Math.round] returns unchanged. *)
Definition round (x : float) : option Z :=
  match Prim2SF x with
  | S754_zero _ => Some 0
  | S754_finite s m e =>
      let M := if s then Z.neg m else Z.pos m in
      Some (if e <? 0 then Z.shiftl (2 * M + 2 ^ (- e)) (e - 1)
            else Z.shiftl M e)
  | _ => None
  end.

(** The zoom label [{Math.round(viewZoom*100)}%]. *)
Definition zoomPercent (viewZoom : float) : option Z :=
  round (viewZoom * 100)%float.

End Pointer.

(** ** History of App.tsx *)

Module History.

Section Items.
(** A [HistoryItem]; its content plays no part in the bookkeeping. *)
Variable Item : Type.

Record HistoryState := mkHistory {
  history : list Item;
  historyIndex : Z
}.

(** [arr.slice(0, end)]. *)
Definition sliceTo (arr : list Item) (end_ : Z) : list Item :=
  let len := Z.of_nat (length arr) in
  let k := if end_ <? 0 then Z.max 0 (len + end_) else Z.min end_ len in
  firstn (Z.to_nat k) arr.

(** The state [addToHistory] sets once the thumbnail is made. *)
Definition addToHistory (st : HistoryState) (newItem : Item)
  : HistoryState :=
  let newHistory := sliceTo (history st) (historyIndex st + 1) ++ [newItem] in
  let newHistory :=
    if 20 <? Z.of_nat (length newHistory) then tl newHistory
    else newHistory in
  mkHistory newHistory (Z.of_nat (length newHistory) - 1).

(** The index [restoreHistoryItem] sets once the image has loaded. *)
Definition restoreHistoryItem (st : HistoryState) (index : Z)
  : HistoryState :=
  if (index <? 0) || (Z.of_nat (length (history st)) <=? index) then st
  else mkHistory (history st) index.

Definition handleUndo (st : HistoryState) : HistoryState :=
  if 0 <? historyIndex st then restoreHistoryItem st (historyIndex st - 1)
  else st.

Definition handleRedo (st : HistoryState) : HistoryState :=
  if historyIndex st <? Z.of_nat (length (history st)) - 1
  then restoreHistoryItem st (historyIndex st + 1)
  else st.

Definition canUndo (st : HistoryState) : bool := 0 <? historyIndex st.
Definition canRedo (st : HistoryState) : bool :=
  historyIndex st <? Z.of_nat (length (history st)) - 1.

(** The item the index points at. *)
Definition current (st : HistoryState) : option Item :=
  at_ (history st) (historyIndex st).

(** What holds of the state from the empty history on. *)
Definition wellFormed (st : HistoryState) : Prop :=
  Z.of_nat (length (history st)) <= 20
  /\ -1 <= historyIndex st < Z.of_nat (length (history st)).

Inductive Action :=
  | Add (newItem : Item) | Restore (index : Z) | Undo | Redo.

Definition step (st : HistoryState) (a : Action) : HistoryState :=
  match a with
  | Add newItem => addToHistory st newItem
  | Restore index => restoreHistoryItem st index
  | Undo => handleUndo st
  | Redo => handleRedo st
  end.

End Items.

Arguments mkHistory {Item}.
Arguments history {Item}.
Arguments historyIndex {Item}.
Arguments addToHistory {Item}.
Arguments restoreHistoryItem {Item}.
Arguments handleUndo {Item}.
Arguments handleRedo {Item}.
Arguments canUndo {Item}.
Arguments canRedo {Item}.
Arguments current {Item}.
Arguments wellFormed {Item}.
Arguments step {Item}.
Arguments Add {Item}.
Arguments Restore {Item}.
Arguments Undo {Item}.
Arguments Redo {Item}.

End History.

(** ** Presets of Sidebar.tsx and the reset of App.tsx *)

Module Presets.

Inductive PresetKey := thermal | realism | dotwork.

Record PresetSettings := mkPreset {
  presetThickness : float;
  presetEdgeIntensity : float;
  presetDetail : float;
  presetSmoothing : float;
  presetMode : Mode;
  presetContrast : float
}.

Definition PRO_PRESETS (key : PresetKey) : PresetSettings :=
  match key with
  | thermal => mkPreset 3 80 60 2 Mixed 15
  | realism => mkPreset 1 40 20 4 Edge (-10)
  | dotwork => mkPreset 1 120 40 0 Edge 30
  end.

(** [applyProPreset]: six calls of [updateSetting], each replacing one
    field of the previous settings. *)
Definition applyProPreset (key : PresetKey) (prev : StencilSettings)
  : StencilSettings :=
  let p := PRO_PRESETS key in
  mkSettings (presetContrast p) (brightness prev) (presetEdgeIntensity p)
    (presetThickness p) (presetDetail p) (presetSmoothing p) (presetMode p)
    (invert prev) (flipX prev) (lineColor prev) (showThermalWarnings prev).

(** [handleReset] on the stencil tab:
    [{...DEFAULT_SETTINGS, mode: prev.mode, lineColor: prev.lineColor}]. *)
Definition handleReset (prev : StencilSettings) : StencilSettings :=
  mkSettings (contrast DEFAULT_SETTINGS) (brightness DEFAULT_SETTINGS)
    (edgeIntensity DEFAULT_SETTINGS) (thickness DEFAULT_SETTINGS)
    (detail DEFAULT_SETTINGS) (smoothing DEFAULT_SETTINGS) (mode prev)
    (invert DEFAULT_SETTINGS) (flipX DEFAULT_SETTINGS) (lineColor prev)
    (showThermalWarnings DEFAULT_SETTINGS).

End Presets.

(** ** Typed arrays and loops *)

Module ArrayFacts.

Lemma upd_length {A} n (v : A) arr : length (upd n v arr) = length arr.
Proof.
  revert n; induction arr as [|h t IH]; intros [|n]; simpl; auto.
Qed.

Lemma store_length {A} (arr : list A) i v :
  length (store arr i v) = length arr.
Proof.
  unfold store; destruct (i <? 0); auto using upd_length.
Qed.

Lemma zrange_length lo hi : length (zrange lo hi) = Z.to_nat (hi - lo).
Proof. unfold zrange. now rewrite length_map, length_seq. Qed.

Lemma zrange_nth lo hi k :
  (k < Z.to_nat (hi - lo))%nat ->
  nth_error (zrange lo hi) k = Some (lo + Z.of_nat k).
Proof.
  intros Hk. unfold zrange.
  rewrite nth_error_map, nth_error_seq.
  destruct (Nat.ltb_spec k (Z.to_nat (hi - lo))); [reflexivity|lia].
Qed.

Lemma zrange_In lo hi i : In i (zrange lo hi) <-> lo <= i < hi.
Proof.
  unfold zrange. rewrite in_map_iff. split.
  - intros (k & <- & Hk). apply in_seq in Hk. lia.
  - intros H. exists (Z.to_nat (i - lo)). split; [lia|].
    apply in_seq. lia.
Qed.

(** A loop that appends a chunk of [n] cells per iteration. *)
Lemma flat_map_chunks_length {A B} (f : A -> list B) n l :
  (forall a, In a l -> length (f a) = n) ->
  length (flat_map f l) = (length l * n)%nat.
Proof.
  induction l as [|a l IH]; simpl; intros H; [reflexivity|].
  rewrite length_app, H, IH by auto. reflexivity.
Qed.

Lemma flat_map_chunks_nth {A B} (f : A -> list B) n l j k :
  (forall a, In a l -> length (f a) = n) ->
  (k < n)%nat ->
  nth_error (flat_map f l) (j * n + k)
  = match nth_error l j with
    | Some a => nth_error (f a) k
    | None => None
    end.
Proof.
  revert j; induction l as [|a l IH]; intros j H Hk.
  - simpl. destruct j; now rewrite nth_error_nil.
  - simpl. destruct j as [|j]; simpl.
    + rewrite nth_error_app1; [reflexivity|]. rewrite H; auto. now left.
    + rewrite nth_error_app2 by (rewrite H; [lia|now left]).
      rewrite H by now left.
      replace (n + j * n + k - n)%nat with (j * n + k)%nat by lia.
      apply IH; auto. intros b Hb. apply H. now right.
Qed.

End ArrayFacts.

(** ** Order of binary64 numbers *)

Module FloatOrder.

Lemma SFcompare_antisym a b :
  SFcompare b a = option_map CompOpp (SFcompare a b).
Proof.
  destruct a as [sa|sa| |sa ma ea], b as [sb|sb| |sb mb eb]; simpl;
    try reflexivity;
    try (destruct sa; reflexivity); try (destruct sb; reflexivity);
    try (destruct sa, sb; reflexivity).
  rewrite (Z.compare_antisym ea eb).
  change (Pos.compare_cont Eq mb ma) with (Pos.compare mb ma).
  change (Pos.compare_cont Eq ma mb) with (Pos.compare ma mb).
  rewrite (Pos.compare_antisym ma mb).
  destruct sa, sb; simpl; try reflexivity;
    destruct (ea ?= eb); simpl; try reflexivity;
    destruct (ma ?= mb)%positive; reflexivity.
Qed.

Ltac cmp_cases :=
  repeat match goal with
  | H : context [Z.compare ?a ?b] |- _ =>
      destruct (Z.compare_spec a b); simpl in H
  | |- context [Z.compare ?a ?b] =>
      destruct (Z.compare_spec a b); simpl
  | H : context [Pos.compare_cont Eq ?a ?b] |- _ =>
      change (Pos.compare_cont Eq a b) with (Pos.compare a b) in H;
      destruct (Pos.compare_spec a b); simpl in H
  | |- context [Pos.compare_cont Eq ?a ?b] =>
      change (Pos.compare_cont Eq a b) with (Pos.compare a b);
      destruct (Pos.compare_spec a b); simpl
  end.

Lemma SFcompare_lt_le_trans a b c :
  SFcompare a b = Some Lt ->
  (SFcompare b c = Some Lt \/ SFcompare b c = Some Eq) ->
  SFcompare a c = Some Lt.
Proof.
  destruct a as [sa|sa| |sa ma ea], b as [sb|sb| |sb mb eb],
           c as [sc|sc| |sc mc ec]; simpl; intros H1 [H2|H2];
    try discriminate; try reflexivity;
    try (destruct sa; try discriminate; try reflexivity);
    try (destruct sb; try discriminate; try reflexivity);
    try (destruct sc; try discriminate; try reflexivity);
    cmp_cases; subst; try discriminate; try reflexivity; try lia.
Qed.

Lemma leb_ltb_false x y :
  PrimFloat.leb x y = true -> PrimFloat.ltb y x = false.
Proof.
  rewrite leb_spec, ltb_spec. unfold SFleb, SFltb.
  rewrite (SFcompare_antisym (Prim2SF x) (Prim2SF y)).
  destruct (SFcompare (Prim2SF x) (Prim2SF y)) as [[]|]; simpl;
    intros; try discriminate; reflexivity.
Qed.

Lemma ltb_leb_trans v t1 t2 :
  PrimFloat.ltb v t1 = true -> PrimFloat.leb t1 t2 = true ->
  PrimFloat.ltb v t2 = true.
Proof.
  rewrite !ltb_spec, leb_spec. unfold SFltb, SFleb.
  intros H1 H2.
  rewrite (SFcompare_lt_le_trans (Prim2SF v) (Prim2SF t1) (Prim2SF t2)).
  - reflexivity.
  - destruct (SFcompare (Prim2SF v) (Prim2SF t1)) as [[]|]; try discriminate.
    reflexivity.
  - destruct (SFcompare (Prim2SF t1) (Prim2SF t2)) as [[]|];
      try discriminate; auto.
Qed.

End FloatOrder.

(** ** Rounding of binary64 products

    The product of two binary64 numbers is specified through
    [binary_round_aux]; this section shows that it is monotone in the left
    factor when the right factor is a positive normal number. *)

Module Rounding.
Import Round64.

Lemma digits2_pos_size p : digits2_pos p = Pos.size p.
Proof. induction p; simpl; congruence. Qed.

Lemma Zdigits2_log2 p : Zdigits2 (Zpos p) = Z.log2 (Zpos p) + 1.
Proof.
  simpl. rewrite digits2_pos_size.
  destruct p; simpl; lia.
Qed.

Lemma digits_bounds p :
  2 ^ (Zdigits2 (Zpos p) - 1) <= Zpos p < 2 ^ Zdigits2 (Zpos p).
Proof.
  rewrite Zdigits2_log2.
  pose proof (Z.log2_spec (Zpos p) ltac:(lia)) as H.
  replace (Z.log2 (Zpos p) + 1 - 1) with (Z.log2 (Zpos p)) by lia.
  exact H.
Qed.

Lemma shr_1_shifted M k q bit lo :
  0 <= k -> shifted M k q bit lo ->
  exists q' bit' lo',
    shr_1 (recordOf q bit lo) = recordOf q' bit' lo'
    /\ shifted M (k + 1) q' bit' lo'.
Proof.
  intros Hk (E & Hlo & Hbit & Hq).
  assert (HP : 0 < 2 ^ k) by (apply Z.pow_pos_nonneg; lia).
  assert (HS : 2 ^ (k + 1) = 2 * 2 ^ k) by (rewrite Z.pow_add_r; lia).
  exists (q / 2), (q mod 2), (2 ^ k * bit + lo).
  pose proof (Z.div_mod q 2 ltac:(lia)) as Eq.
  pose proof (Z.mod_pos_bound q 2 ltac:(lia)) as Bq.
  split.
  - unfold recordOf, shr_1.
    assert (Hs : ((bit =? 1) || negb (lo =? 0))
                 = negb (2 ^ k * bit + lo =? 0)).
    { destruct (Z.eqb_spec bit 1), (Z.eqb_spec lo 0),
        (Z.eqb_spec (2 ^ k * bit + lo) 0); simpl; try reflexivity; nia. }
    rewrite Hs. clear Hs E.
    remember (q / 2) as q2 eqn:Eq2. remember (q mod 2) as b2 eqn:Eb2.
    clear Eq2 Eb2.
    destruct q as [|[p|p|]|p]; try lia.
    + assert (q2 = 0 /\ b2 = 0) as [-> ->] by lia. reflexivity.
    + assert (q2 = Z.pos p /\ b2 = 1) as [-> ->] by lia. reflexivity.
    + assert (q2 = Z.pos p /\ b2 = 0) as [-> ->] by lia. reflexivity.
    + assert (q2 = 0 /\ b2 = 1) as [-> ->] by lia. reflexivity.
  - unfold shifted. rewrite HS.
    assert (0 <= q / 2) by (apply Z.div_pos; lia).
    repeat split; try nia.
Qed.

Lemma iter_shr_1_shifted M p :
  forall k q bit lo,
    0 <= k -> shifted M k q bit lo ->
    exists q' bit' lo',
      iter_pos shr_1 p (recordOf q bit lo) = recordOf q' bit' lo'
      /\ shifted M (k + Zpos p) q' bit' lo'.
Proof.
  induction p as [p IH|p IH|]; intros k q bit lo Hk Hs; cbn [iter_pos].
  - destruct (shr_1_shifted M k q bit lo Hk Hs) as (q1 & b1 & l1 & -> & H1).
    destruct (IH (k + 1) q1 b1 l1 ltac:(lia) H1) as (q2 & b2 & l2 & -> & H2).
    destruct (IH (k + 1 + Zpos p) q2 b2 l2 ltac:(lia) H2)
      as (q3 & b3 & l3 & -> & H3).
    exists q3, b3, l3. split; [reflexivity|].
    replace (k + Z.pos p~1) with (k + 1 + Z.pos p + Z.pos p) by lia.
    exact H3.
  - destruct (IH k q bit lo Hk Hs) as (q2 & b2 & l2 & -> & H2).
    destruct (IH (k + Zpos p) q2 b2 l2 ltac:(lia) H2)
      as (q3 & b3 & l3 & -> & H3).
    exists q3, b3, l3. split; [reflexivity|].
    replace (k + Z.pos p~0) with (k + Z.pos p + Z.pos p) by lia.
    exact H3.
  - apply shr_1_shifted; assumption.
Qed.

Lemma shr_shifted M E n :
  0 < M -> 0 <= n ->
  exists q bit lo,
    shr (Build_shr_record M false false) E n = (recordOf q bit lo, E + n)
    /\ shifted M n q bit lo.
Proof.
  intros HM Hn.
  assert (H0 : shifted M 0 M 0 0) by (unfold shifted; rewrite Z.pow_0_r; lia).
  destruct n as [|p|p]; try lia.
  - exists M, 0, 0. split; [|exact H0].
    unfold shr. now rewrite Z.add_0_r.
  - destruct (iter_shr_1_shifted M p 0 M 0 0 ltac:(lia) H0)
      as (q & b & l & E1 & H1).
    exists q, b, l. split; [|exact H1].
    unfold shr. change (Build_shr_record M false false) with (recordOf M 0 0).
    now rewrite E1.
Qed.

Lemma round_nearest_even_rne q bit lo :
  0 <= bit <= 1 ->
  round_nearest_even (shr_m (recordOf q bit lo))
    (loc_of_shr_record (recordOf q bit lo)) = rne q bit lo.
Proof.
  intros Hb. unfold recordOf, rne, round_nearest_even. simpl.
  destruct (bit =? 1), (lo =? 0); simpl; try reflexivity.
  rewrite <- Z.negb_even. destruct (Z.even q); reflexivity.
Qed.

Lemma fexp_fexp64 e : fexp 53 1024 e = fexp64 e.
Proof. reflexivity. Qed.

Lemma shifted_bound M n q bit lo d :
  0 <= n -> shifted M n q bit lo -> M < 2 ^ d -> d <= n + 53 ->
  q < 2 ^ 53 /\ rne q bit lo <= 2 ^ 53.
Proof.
  intros Hn (E & Hlo & Hbit & Hq) HM Hd.
  assert (HP : 0 < 2 ^ n) by (apply Z.pow_pos_nonneg; lia).
  assert (Hle : 2 ^ d <= 2 ^ n * 2 ^ 53).
  { rewrite <- Z.pow_add_r by lia. apply Z.pow_le_mono_r; lia. }
  assert (q < 2 ^ 53) by nia.
  split; [assumption|]. unfold rne.
  destruct ((bit =? 1) && (negb (lo =? 0) || Z.odd q)); lia.
Qed.

Lemma second_shift_none q G :
  0 < q < 2 ^ 53 -> -1074 <= G ->
  shr_fexp 53 1024 q G loc_Exact = (Build_shr_record q false false, G).
Proof.
  intros Hq HG. unfold shr_fexp. rewrite fexp_fexp64. simpl shr_record_of_loc.
  destruct q as [|p|p]; try lia.
  rewrite Zdigits2_log2.
  assert (Z.log2 (Z.pos p) < 53) by (apply Z.log2_lt_pow2; lia).
  unfold fexp64.
  destruct (Z.max (Z.log2 (Z.pos p) + 1 + G - 53) (-1074) - G) eqn:E;
    try reflexivity; lia.
Qed.

Lemma second_shift_zero G :
  -1074 <= G ->
  shr_fexp 53 1024 0 G loc_Exact = (Build_shr_record 0 false false, G).
Proof.
  intros HG. unfold shr_fexp. rewrite fexp_fexp64. simpl shr_record_of_loc.
  simpl Zdigits2. unfold fexp64.
  destruct (Z.max (0 + G - 53) (-1074) - G) eqn:E; try reflexivity; lia.
Qed.

Lemma second_shift_carry G :
  -1074 <= G ->
  shr_fexp 53 1024 (2 ^ 53) G loc_Exact
  = (Build_shr_record (2 ^ 52) false false, G + 1).
Proof.
  intros HG. unfold shr_fexp. rewrite fexp_fexp64.
  change (Zdigits2 (2 ^ 53)) with 54. unfold fexp64.
  replace (Z.max (54 + G - 53) (-1074) - G) with 1 by lia.
  reflexivity.
Qed.

(** The rounding of [M * 2 ^ E] when the mantissa is not shorter than the
    format asks for. *)
Lemma round_aux_spec M E :
  let G := fexp64 (Zdigits2 (Zpos M) + E) in
  E <= G ->
  exists q bit lo,
    shifted (Zpos M) (G - E) q bit lo
    /\ rne q bit lo <= 2 ^ 53
    /\ binary_round_aux 53 1024 false (Zpos M) E loc_Exact
       = pack (rne q bit lo) G.
Proof.
  intros G HG.
  assert (HGmin : -1074 <= G) by (unfold G, fexp64; lia).
  destruct (shr_shifted (Zpos M) E (G - E) ltac:(lia) ltac:(lia))
    as (q & bit & lo & Hshr & Hs).
  exists q, bit, lo.
  destruct (digits_bounds M) as [_ Hd].
  assert (Hdn : Zdigits2 (Zpos M) <= G - E + 53)
    by (unfold G, fexp64; lia).
  destruct (shifted_bound (Zpos M) (G - E) q bit lo (Zdigits2 (Zpos M))
              ltac:(lia) Hs Hd Hdn) as [Hq Hr].
  split; [exact Hs|]. split; [exact Hr|].
  unfold binary_round_aux.
  unfold shr_fexp at 1. rewrite fexp_fexp64. simpl shr_record_of_loc.
  fold G. rewrite Hshr.
  replace (E + (G - E)) with G by lia.
  destruct Hs as (_ & _ & Hbit & Hq0).
  rewrite (round_nearest_even_rne q bit lo Hbit).
  assert (Hr0 : 0 <= rne q bit lo).
  { unfold rne. destruct ((bit =? 1) && (negb (lo =? 0) || Z.odd q)); lia. }
  unfold pack.
  destruct (Z.eqb_spec (rne q bit lo) 0) as [E0|E0].
  - rewrite E0, second_shift_zero by assumption. reflexivity.
  - destruct (Z.eqb_spec (rne q bit lo) (2 ^ 53)) as [E1|E1].
    + rewrite E1, second_shift_carry by assumption. reflexivity.
    + rewrite second_shift_none by lia. simpl shr_m.
      destruct (rne q bit lo) as [|p|p] eqn:Ep; try lia.
      reflexivity.
Qed.

Lemma rne_mono M1 M2 n q1 b1 l1 q2 b2 l2 :
  0 <= n -> shifted M1 n q1 b1 l1 -> shifted M2 n q2 b2 l2 -> M1 <= M2 ->
  rne q1 b1 l1 <= rne q2 b2 l2.
Proof.
  intros Hn (E1 & Hl1 & Hb1 & Hq1) (E2 & Hl2 & Hb2 & Hq2) HM.
  assert (HP : 0 < 2 ^ n) by (apply Z.pow_pos_nonneg; lia).
  set (P := 2 ^ n) in *.
  assert (Hq : q1 < q2 \/ q1 = q2 \/ q2 < q1) by lia.
  unfold rne.
  destruct Hq as [Hq|[Hq|Hq]].
  - destruct ((b1 =? 1) && (negb (l1 =? 0) || Z.odd q1)),
             ((b2 =? 1) && (negb (l2 =? 0) || Z.odd q2)); lia.
  - subst q2.
    assert (Hrem : P * b1 + l1 <= P * b2 + l2) by nia.
    destruct (Z.eqb_spec b1 1), (Z.eqb_spec b2 1), (Z.eqb_spec l1 0),
      (Z.eqb_spec l2 0), (Z.odd q1); simpl; try lia; nia.
  - exfalso. nia.
Qed.

Lemma shifted_scale M n q bit lo k :
  0 <= n -> 0 <= k -> shifted M n q bit lo ->
  shifted (M * 2 ^ k) (n + k) q bit (lo * 2 ^ k)
  /\ rne q bit (lo * 2 ^ k) = rne q bit lo.
Proof.
  intros Hn Hk (E & Hl & Hb & Hq).
  assert (HP : 0 < 2 ^ n) by (apply Z.pow_pos_nonneg; lia).
  assert (HK : 0 < 2 ^ k) by (apply Z.pow_pos_nonneg; lia).
  split.
  - unfold shifted. rewrite Z.pow_add_r by lia. repeat split; try lia; nia.
  - unfold rne.
    destruct (Z.eqb_spec (lo * 2 ^ k) 0), (Z.eqb_spec lo 0);
      try reflexivity; nia.
Qed.

Lemma shifted_normal M n q bit lo :
  0 <= n -> shifted M n q bit lo -> 2 ^ (n + 52) <= M ->
  2 ^ 52 <= q /\ 2 ^ 52 <= rne q bit lo.
Proof.
  intros Hn (E & Hl & Hb & Hq) HM.
  assert (HP : 0 < 2 ^ n) by (apply Z.pow_pos_nonneg; lia).
  rewrite Z.pow_add_r in HM by lia.
  assert (2 ^ 52 <= q) by nia.
  split; [assumption|]. unfold rne.
  destruct ((bit =? 1) && (negb (lo =? 0) || Z.odd q)); lia.
Qed.

Lemma rne_nonneg q bit lo : 0 <= q -> 0 <= rne q bit lo.
Proof.
  intros H. unfold rne.
  destruct ((bit =? 1) && (negb (lo =? 0) || Z.odd q)); lia.
Qed.

Ltac order_cases :=
  repeat match goal with
  | |- context [Z.compare ?a ?b] => destruct (Z.compare_spec a b)
  | |- context [Pos.compare_cont Eq ?a ?b] =>
      change (Pos.compare_cont Eq a b) with (Pos.compare a b);
      destruct (Pos.compare_spec a b)
  end.

Lemma pack_le_same q1 q2 G :
  0 <= q1 -> q1 <= q2 -> q2 <= 2 ^ 53 ->
  SFleb (pack q1 G) (pack q2 G) = true.
Proof.
  intros H0 H12 H2. unfold pack.
  destruct (Z.eqb_spec q1 0), (Z.eqb_spec q2 0), (Z.eqb_spec q1 (2 ^ 53)),
    (Z.eqb_spec q2 (2 ^ 53)), (Z.leb_spec (G + 1) 971), (Z.leb_spec G 971);
    try lia; unfold SFleb, SFcompare; try reflexivity;
    order_cases; try reflexivity; try lia.
Qed.

Lemma pack_le_next q1 q2 G1 G2 :
  G1 < G2 -> 0 <= q1 -> q1 <= 2 ^ 53 -> 2 ^ 52 <= q2 -> q2 <= 2 ^ 53 ->
  SFleb (pack q1 G1) (pack q2 G2) = true.
Proof.
  intros HG H0 H1 H2 H3. unfold pack.
  destruct (Z.eqb_spec q1 0), (Z.eqb_spec q2 0), (Z.eqb_spec q1 (2 ^ 53)),
    (Z.eqb_spec q2 (2 ^ 53)), (Z.leb_spec (G1 + 1) 971), (Z.leb_spec G1 971),
    (Z.leb_spec (G2 + 1) 971), (Z.leb_spec G2 971);
    try lia; unfold SFleb, SFcompare; try reflexivity;
    order_cases; try reflexivity; try lia.
Qed.

(** Rounding is monotone in the value [M * 2 ^ E]. *)
Lemma round64_mono M1 E1 M2 E2 :
  E1 <= E2 -> Zpos M1 <= Zpos M2 * 2 ^ (E2 - E1) ->
  E1 <= fexp64 (Zdigits2 (Zpos M1) + E1) ->
  E2 <= fexp64 (Zdigits2 (Zpos M2) + E2) ->
  SFleb (round64 M1 E1) (round64 M2 E2) = true.
Proof.
  intros HE HM Hn1 Hn2. unfold round64.
  destruct (round_aux_spec M1 E1 Hn1) as (q1 & b1 & l1 & Hs1 & Hr1 & ->).
  destruct (round_aux_spec M2 E2 Hn2) as (q2 & b2 & l2 & Hs2 & Hr2 & ->).
  set (G1 := fexp64 (Zdigits2 (Zpos M1) + E1)) in *.
  set (G2 := fexp64 (Zdigits2 (Zpos M2) + E2)) in *.
  set (k := E2 - E1) in *.
  assert (HK : 0 < 2 ^ k) by (apply Z.pow_pos_nonneg; lia).
  assert (Hd : Zdigits2 (Zpos M1) <= Zdigits2 (Zpos M2) + k).
  { rewrite !Zdigits2_log2.
    pose proof (Z.log2_le_mono _ _ HM) as Hl.
    rewrite Z.log2_mul_pow2 in Hl by lia. lia. }
  assert (HG : G1 <= G2) by (unfold G1, G2, fexp64; lia).
  assert (Hq1 : 0 <= rne q1 b1 l1)
    by (apply rne_nonneg; destruct Hs1 as (_ & _ & _ & H); exact H).
  destruct (Z.eq_dec G1 G2) as [Heq|Hne].
  - rewrite <- Heq.
    apply pack_le_same; [assumption| |assumption].
    assert (Hn2' : 0 <= G2 - E2) by lia.
    assert (Hk : 0 <= k) by (unfold k; lia).
    destruct (shifted_scale _ _ _ _ _ k Hn2' Hk Hs2) as [Hs2' <-].
    replace (G2 - E2 + k) with (G1 - E1) in Hs2' by (unfold k; lia).
    assert (Hn1' : 0 <= G1 - E1) by lia.
    exact (rne_mono _ _ _ _ _ _ _ _ _ Hn1' Hs1 Hs2' HM).
  - assert (Hnorm : G2 = Zdigits2 (Zpos M2) + E2 - 53)
      by (unfold G1, G2, fexp64 in *; lia).
    destruct (digits_bounds M2) as [Hlow _].
    replace (Zdigits2 (Zpos M2) - 1) with (G2 - E2 + 52) in Hlow by lia.
    assert (Hn2' : 0 <= G2 - E2) by lia.
    destruct (shifted_normal _ _ _ _ _ Hn2' Hs2 Hlow) as [_ Hq2].
    apply pack_le_next; try assumption; lia.
Qed.

(** What the sign changes. *)
Lemma round_aux_sign m e l :
  binary_round_aux 53 1024 true m e l
  = SFopp (binary_round_aux 53 1024 false m e l).
Proof.
  unfold binary_round_aux.
  destruct (shr_fexp 53 1024 m e l) as [mrs' e'].
  destruct (shr_fexp 53 1024 _ e' loc_Exact) as [mrs'' e''].
  destruct (shr_m mrs''); try reflexivity.
  destruct (e'' <=? 1024 - 53); reflexivity.
Qed.

Lemma pack_shape q G :
  pack q G = S754_zero false \/ pack q G = S754_infinity false
  \/ exists m e, pack q G = S754_finite false m e.
Proof.
  unfold pack.
  destruct (q =? 0); [auto|].
  destruct (q =? 2 ^ 53).
  - destruct (G + 1 <=? 971); eauto.
  - destruct (G <=? 971); eauto.
Qed.

(** A valid finite binary64 number. *)
Lemma bounded_canonical m e :
  bounded 53 1024 m e = true ->
  e = fexp64 (Zdigits2 (Zpos m) + e) /\ e <= 971.
Proof.
  unfold bounded, canonical_mantissa. intros H.
  apply andb_true_iff in H as [Hc He].
  apply Z.eqb_eq in Hc. apply Z.leb_le in He.
  rewrite fexp_fexp64 in Hc. simpl Zdigits2. split; [lia|].
  exact He.
Qed.

Section Factor.
(** The constant factor: a positive normal number [mc * 2 ^ ec]. *)
Variables (mc : positive) (ec : Z).
Hypothesis normal_factor : Zdigits2 (Zpos mc) = 53.

Lemma product_long m e :
  bounded 53 1024 m e = true ->
  e + ec <= fexp64 (Zdigits2 (Zpos (m * mc)) + (e + ec)).
Proof.
  intros Hb. apply bounded_canonical in Hb as [Hc _].
  rewrite Zdigits2_log2 in *. rewrite Pos2Z.inj_mul.
  pose proof (Z.log2_mul_below (Zpos m) (Zpos mc) ltac:(lia) ltac:(lia)).
  pose proof (Z.log2_nonneg (Zpos m)).
  unfold fexp64 in *. lia.
Qed.

Lemma product_round_mono m1 e1 m2 e2 :
  bounded 53 1024 m1 e1 = true -> bounded 53 1024 m2 e2 = true ->
  SFleb (S754_finite false m1 e1) (S754_finite false m2 e2) = true ->
  SFleb (round64 (m1 * mc) (e1 + ec)) (round64 (m2 * mc) (e2 + ec)) = true.
Proof.
  intros Hb1 Hb2 Hle.
  pose proof (product_long m1 e1 Hb1) as Hn1.
  pose proof (product_long m2 e2 Hb2) as Hn2.
  apply bounded_canonical in Hb1 as [Hc1 _].
  apply bounded_canonical in Hb2 as [Hc2 _].
  destruct (digits_bounds m1) as [_ Hu1].
  destruct (digits_bounds m2) as [Hl2 _].
  unfold SFleb, SFcompare in Hle.
  assert (Hord : e1 < e2 \/ (e1 = e2 /\ (m1 <= m2)%positive)).
  { destruct (Z.compare_spec e1 e2); [right|left|discriminate].
    - split; [assumption|].
      change (Pos.compare_cont Eq m1 m2) with (Pos.compare m1 m2) in Hle.
      destruct (Pos.compare_spec m1 m2); try discriminate; lia.
    - assumption. }
  apply round64_mono; try assumption.
  - lia.
  - rewrite !Pos2Z.inj_mul.
    destruct Hord as [Hlt|[-> Hm]].
    + replace (e2 + ec - (e1 + ec)) with (e2 - e1) by lia.
      assert (Hd1 : Zdigits2 (Zpos m1) <= 53) by (unfold fexp64 in Hc1; lia).
      assert (Hd2 : Zdigits2 (Zpos m2) = 53) by (unfold fexp64 in *; lia).
      rewrite Hd2 in Hl2.
      assert (Hm1 : Zpos m1 < 2 ^ 53).
      { eapply Z.lt_le_trans; [exact Hu1|]. apply Z.pow_le_mono_r; lia. }
      assert (HX : 2 ^ 1 <= 2 ^ (e2 - e1)) by (apply Z.pow_le_mono_r; lia).
      change (2 ^ 1) with 2 in HX. change (2 ^ (53 - 1)) with (2 ^ 52) in Hl2.
      change (2 ^ 53) with (2 * 2 ^ 52) in Hm1.
      set (T := 2 ^ 52) in *. set (X := 2 ^ (e2 - e1)) in *.
      assert (Hm : Zpos m1 <= Zpos m2 * X) by nia.
      rewrite <- Z.mul_assoc, (Z.mul_comm (Zpos mc) X), Z.mul_assoc.
      apply Z.mul_le_mono_nonneg_r; lia.
    + replace (e2 + ec - (e2 + ec)) with 0 by lia.
      rewrite Z.pow_0_r. nia.
Qed.

Lemma product_round_shape m e :
  bounded 53 1024 m e = true -> nonNegative (round64 (m * mc) (e + ec)).
Proof.
  intros Hb. unfold round64.
  destruct (round_aux_spec (m * mc) (e + ec) (product_long m e Hb))
    as (q & b & l & _ & _ & ->).
  apply pack_shape.
Qed.

Lemma SFleb_opp a b :
  SFleb a b = true -> SFleb (SFopp b) (SFopp a) = true.
Proof.
  unfold SFleb.
  destruct a as [sa|sa| |sa ma ea], b as [sb|sb| |sb mb eb]; simpl;
    try discriminate; try reflexivity;
    try (destruct sa; simpl; try discriminate; reflexivity);
    try (destruct sb; simpl; try discriminate; reflexivity);
    try (destruct sa, sb; simpl; try discriminate; reflexivity).
  rewrite (Z.compare_antisym ea eb).
  change (Pos.compare_cont Eq mb ma) with (Pos.compare mb ma).
  change (Pos.compare_cont Eq ma mb) with (Pos.compare ma mb).
  rewrite (Pos.compare_antisym ma mb).
  destruct sa, sb; simpl; try discriminate; try reflexivity;
    destruct (ea ?= eb); simpl; try discriminate; try reflexivity;
    destruct (ma ?= mb)%positive; simpl; try discriminate; reflexivity.
Qed.

Ltac shape r H :=
  destruct H as [H|[H|(? & ? & H)]]; rewrite H; clear H.

(** Multiplying by the factor keeps the order of two valid numbers. *)
Lemma SFmul_mono X Y :
  SpecFloat.valid_binary 53 1024 X = true ->
  SpecFloat.valid_binary 53 1024 Y = true ->
  SFleb X Y = true ->
  SFleb (SFmul 53 1024 X (S754_finite false mc ec))
        (SFmul 53 1024 Y (S754_finite false mc ec)) = true.
Proof.
  intros HX HY Hle.
  destruct X as [sx|sx| |sx mx ex], Y as [sy|sy| |sy my ey];
    try discriminate Hle; cbn [SFmul]; rewrite ?xorb_false_r.
  - reflexivity.
  - destruct sy; [discriminate Hle|reflexivity].
  - destruct sy; [discriminate Hle|]. fold (round64 (my * mc) (ey + ec)).
    pose proof (product_round_shape my ey HY) as S.
    shape (round64 (my * mc) (ey + ec)) S; reflexivity.
  - destruct sx; [reflexivity|discriminate Hle].
  - destruct sx, sy; try discriminate Hle; reflexivity.
  - destruct sx; [|discriminate Hle]. destruct sy.
    + rewrite round_aux_sign. fold (round64 (my * mc) (ey + ec)).
      pose proof (product_round_shape my ey HY) as S.
      shape (round64 (my * mc) (ey + ec)) S; reflexivity.
    + fold (round64 (my * mc) (ey + ec)).
      pose proof (product_round_shape my ey HY) as S.
      shape (round64 (my * mc) (ey + ec)) S; reflexivity.
  - destruct sx; [|discriminate Hle].
    rewrite round_aux_sign. fold (round64 (mx * mc) (ex + ec)).
    pose proof (product_round_shape mx ex HX) as S.
    shape (round64 (mx * mc) (ex + ec)) S; reflexivity.
  - destruct sy; [destruct sx; discriminate Hle|].
    destruct sx.
    + rewrite round_aux_sign. fold (round64 (mx * mc) (ex + ec)).
      pose proof (product_round_shape mx ex HX) as S.
      shape (round64 (mx * mc) (ex + ec)) S; reflexivity.
    + fold (round64 (mx * mc) (ex + ec)).
      pose proof (product_round_shape mx ex HX) as S.
      shape (round64 (mx * mc) (ex + ec)) S; reflexivity.
  - simpl in HX, HY. destruct sx, sy.
    + rewrite !round_aux_sign.
      fold (round64 (mx * mc) (ex + ec)) (round64 (my * mc) (ey + ec)).
      apply SFleb_opp. apply product_round_mono; try assumption.
      apply SFleb_opp in Hle. exact Hle.
    + rewrite round_aux_sign.
      fold (round64 (mx * mc) (ex + ec)) (round64 (my * mc) (ey + ec)).
      pose proof (product_round_shape mx ex HX) as S.
      pose proof (product_round_shape my ey HY) as S'.
      shape (round64 (mx * mc) (ex + ec)) S;
        shape (round64 (my * mc) (ey + ec)) S'; reflexivity.
    + discriminate Hle.
    + fold (round64 (mx * mc) (ex + ec)) (round64 (my * mc) (ey + ec)).
      apply product_round_mono; assumption.
Qed.

End Factor.

(** [x * c] is monotone in [x] for a positive normal [c]. *)
Lemma mul_mono_l (c x y : float) (mc : positive) (ec : Z) :
  Prim2SF c = S754_finite false mc ec ->
  Zdigits2 (Zpos mc) = 53 ->
  PrimFloat.leb x y = true ->
  PrimFloat.leb (x * c) (y * c) = true.
Proof.
  intros Hc Hn Hle.
  rewrite leb_spec in *. rewrite !mul_spec, Hc.
  apply SFmul_mono; try assumption; apply Prim2SF_valid.
Qed.

End Rounding.

(** ** Thermal analysis: the warning branch *)

Module ThermalFacts.
Import Thermal.

Lemma guard_unsatisfiable data idx :
  isBlack data idx = true ->
  Js.gtU (at_ data idx) 100 = false.
Proof.
  unfold isBlack; intros H.
  apply andb_true_iff in H as [Hlt _].
  destruct (at_ data idx) as [r|]; simpl in *; [|reflexivity].
  apply Z.ltb_lt in Hlt. apply Z.ltb_ge. lia.
Qed.

Lemma visit_id data w out y x : visit data w out y x = out.
Proof.
  unfold visit.
  destruct (isBlack data ((y * w + x) * 4)) eqn:Hb; [|reflexivity].
  rewrite (guard_unsatisfiable _ _ Hb). reflexivity.
Qed.

Lemma scan_id data w h out : scan data w h out = out.
Proof.
  unfold scan.
  induction (zrange 1 (h - 1)) as [|y ys IH]; simpl; [reflexivity|].
  assert (Hrow : forall xs o,
    fold_left (fun out' x => visit data w out' y x) xs o = o).
  { induction xs as [|x xs IHx]; intros o; simpl; [reflexivity|].
    rewrite visit_id. apply IHx. }
  rewrite Hrow. exact IH.
Qed.

(** C10: for every pair of buffers the overlay returned by
    [analyzeThermalIssues] is transparent everywhere, every byte is zero:
    the pixel whose red byte is below 50 cannot have that byte above 100,
    so the branch that writes the warning colour is never taken. *)
Theorem overlay_always_transparent (originalData processedData : ImageData) :
  analyzeThermalIssues originalData processedData
  = blankImage (width processedData) (height processedData)
  /\ Forall (fun b => b = 0)
       (data (analyzeThermalIssues originalData processedData)).
Proof.
  assert (E : analyzeThermalIssues originalData processedData
              = blankImage (width processedData) (height processedData)).
  { unfold analyzeThermalIssues. rewrite scan_id. reflexivity. }
  split; [exact E|].
  rewrite E. simpl. apply Forall_forall. intros b Hb.
  apply repeat_spec in Hb. exact Hb.
Qed.

End ThermalFacts.

(** ** The final copy and its mirror *)

Module RenderFacts.
Import Stencil ArrayFacts.

Lemma pixels_length w h :
  0 <= w -> 0 <= h -> length (pixels w h) = Z.to_nat (w * h).
Proof.
  intros Hw Hh. unfold pixels.
  rewrite (flat_map_chunks_length _ (Z.to_nat w)).
  - rewrite zrange_length. nia.
  - intros y _. now rewrite length_map, zrange_length, Z.sub_0_r.
Qed.

Lemma pixels_nth w h y x :
  0 <= y < h -> 0 <= x < w ->
  nth_error (pixels w h) (Z.to_nat (y * w + x)) = Some (y, x).
Proof.
  intros Hy Hx. unfold pixels.
  replace (Z.to_nat (y * w + x))
    with (Z.to_nat y * Z.to_nat w + Z.to_nat x)%nat by nia.
  rewrite (flat_map_chunks_nth _ (Z.to_nat w)).
  - rewrite zrange_nth by lia.
    rewrite nth_error_map, zrange_nth by lia.
    simpl. f_equal. f_equal; lia.
  - intros a _. now rewrite length_map, zrange_length, Z.sub_0_r.
  - lia.
Qed.

Lemma render_length flip w h buf :
  0 <= w -> 0 <= h ->
  length (render flip w h buf) = Z.to_nat (w * h * 4).
Proof.
  intros Hw Hh. unfold render.
  rewrite (flat_map_chunks_length _ 4%nat).
  - rewrite pixels_length by assumption. nia.
  - intros [y x] _. reflexivity.
Qed.

(** The byte [k] of the pixel written at [(x, y)]. *)
Lemma render_at flip w h buf y x k :
  0 <= y < h -> 0 <= x < w -> 0 <= k < 4 ->
  at_ (render flip w h buf) ((y * w + x) * 4 + k)
  = Some (getB buf ((y * w + (if flip then w - 1 - x else x)) * 4 + k)).
Proof.
  intros Hy Hx Hk. unfold at_.
  assert (Hp : 0 <= y * w + x) by nia.
  destruct (Z.ltb_spec ((y * w + x) * 4 + k) 0); [lia|].
  replace (Z.to_nat ((y * w + x) * 4 + k))
    with (Z.to_nat (y * w + x) * 4 + Z.to_nat k)%nat by lia.
  unfold render.
  rewrite (flat_map_chunks_nth _ 4%nat); [|intros [? ?] _; reflexivity|lia].
  rewrite pixels_nth by assumption.
  assert (Hk' : k = 0 \/ k = 1 \/ k = 2 \/ k = 3) by lia.
  destruct Hk' as [-> | [-> | [-> | ->]]]; simpl; rewrite ?Z.add_0_r;
    reflexivity.
Qed.

(** Every index of a [w * h] pixel buffer is byte [k] of some pixel. *)
Lemma index_split w h n :
  0 < w -> 0 <= n < w * h * 4 ->
  exists y x k, 0 <= y < h /\ 0 <= x < w /\ 0 <= k < 4
                /\ n = (y * w + x) * 4 + k.
Proof.
  intros Hw Hn.
  exists (n / 4 / w), ((n / 4) mod w), (n mod 4).
  pose proof (Z.div_mod n 4 ltac:(lia)) as E1.
  pose proof (Z.mod_pos_bound n 4 ltac:(lia)) as B1.
  pose proof (Z.div_mod (n / 4) w ltac:(lia)) as E2.
  pose proof (Z.mod_pos_bound (n / 4) w ltac:(lia)) as B2.
  assert (0 <= n / 4) by (apply Z.div_pos; lia).
  assert (0 <= n / 4 / w) by (apply Z.div_pos; lia).
  assert (n / 4 < w * h) by (apply Z.div_lt_upper_bound; lia).
  assert (n / 4 / w < h) by (apply Z.div_lt_upper_bound; lia).
  repeat split; try lia.
Qed.

Lemma at_ext {A} (l1 l2 : list A) :
  length l1 = length l2 ->
  (forall n, 0 <= n < Z.of_nat (length l1) -> at_ l1 n = at_ l2 n) ->
  l1 = l2.
Proof.
  intros Hlen H. apply nth_error_ext. intros n.
  destruct (Nat.ltb_spec n (length l1)) as [Hn|Hn].
  - specialize (H (Z.of_nat n) ltac:(lia)). unfold at_ in H.
    destruct (Z.ltb_spec (Z.of_nat n) 0); [lia|].
    now rewrite Nat2Z.id in H.
  - rewrite (proj2 (nth_error_None l1 n)) by lia.
    rewrite (proj2 (nth_error_None l2 n)) by lia. reflexivity.
Qed.

Lemma getB_at buf n v : at_ buf n = Some v -> getB buf n = v.
Proof. unfold getB. now intros ->. Qed.

Lemma at_defined {A} (l : list A) n :
  0 <= n < Z.of_nat (length l) -> exists v, at_ l n = Some v.
Proof.
  intros Hn. unfold at_. destruct (Z.ltb_spec n 0); [lia|].
  destruct (nth_error l (Z.to_nat n)) eqn:E; [eauto|].
  apply nth_error_None in E. lia.
Qed.

(** Copying without the mirror gives the buffer back. *)
Lemma render_plain w h buf :
  0 < w -> 0 < h -> length buf = Z.to_nat (w * h * 4) ->
  render false w h buf = buf.
Proof.
  intros Hw Hh Hlen. apply at_ext.
  - rewrite render_length by lia. now rewrite Hlen.
  - intros n Hn. rewrite render_length in Hn by lia.
    destruct (index_split w h n Hw ltac:(nia))
      as (y & x & k & Hy & Hx & Hk & E).
    subst n.
    rewrite render_at by assumption.
    destruct (at_defined buf ((y * w + x) * 4 + k) ltac:(nia)) as [v Hv].
    rewrite Hv. f_equal. now apply getB_at.
Qed.

(** The mirror read twice. *)
Lemma render_mirror_twice w h buf :
  0 < w -> 0 < h ->
  render true w h (render true w h buf) = render false w h buf.
Proof.
  intros Hw Hh. apply at_ext.
  - now rewrite !render_length by lia.
  - intros n Hn. rewrite render_length in Hn by lia.
    destruct (index_split w h n Hw ltac:(nia))
      as (y & x & k & Hy & Hx & Hk & E).
    subst n.
    rewrite !render_at by assumption. f_equal.
    apply getB_at. rewrite render_at by lia.
    do 3 f_equal. lia.
Qed.

End RenderFacts.

(** ** The pipeline as a whole *)

Module StencilFacts.
Import Stencil ArrayFacts RenderFacts.

Lemma flat_map_map {A B C} (f : B -> list C) (g : A -> B) l :
  flat_map f (map g l) = flat_map (fun a => f (g a)) l.
Proof. induction l; simpl; congruence. Qed.

(** The result in terms of the painted classification. *)
Lemma processStencil_classify img s :
  processStencil img s
  = match classify img s with
    | None => None
    | Some isLine =>
        let output :=
          mkImageData (width img) (height img)
            (render (flipX s) (width img) (height img)
               (flat_map (paint (hexToRgb (lineColor s))) isLine)) in
        Some (mkResult output
                (if showThermalWarnings s
                 then Some (Thermal.analyzeThermalIssues img output)
                 else None))
    end.
Proof.
  unfold processStencil, classify.
  destruct (grayBufferOf img s) as [gray|]; [|reflexivity].
  destruct (lineMask s (width img) (height img) gray) as [mask|];
    [|reflexivity].
  simpl. unfold composite. now rewrite flat_map_map.
Qed.

Lemma lineMask_length s w h gray mask :
  lineMask s w h gray = Some mask -> length mask = Z.to_nat (w * h).
Proof.
  unfold lineMask. intros H.
  destruct (mode s);
    try (destruct (dilate s w h (sobel s w h gray)); [|discriminate]);
    injection H as <-; now rewrite length_map, zrange_length, Z.sub_0_r.
Qed.

Lemma classify_length img s isLine :
  classify img s = Some isLine ->
  length isLine = Z.to_nat (width img * height img).
Proof.
  unfold classify. destruct (grayBufferOf img s) as [gray|]; [|discriminate].
  destruct (lineMask s (width img) (height img) gray) as [mask|] eqn:E;
    [|discriminate].
  simpl. intros H. injection H as <-. rewrite length_map.
  eapply lineMask_length; eauto.
Qed.

Lemma painted_length rgb isLine :
  length (flat_map (paint rgb) isLine) = (length isLine * 4)%nat.
Proof.
  apply flat_map_chunks_length. intros [] _; reflexivity.
Qed.

(** The mirror flag is read by the final copy only, the invert flag by the
    invert step only. *)
Lemma classify_setFlipX img s b :
  classify img (setFlipX b s) = classify img s.
Proof. destruct s; reflexivity. Qed.

Lemma grayBufferOf_setInvert img s b :
  grayBufferOf img (setInvert b s) = grayBufferOf img s.
Proof. destruct s; reflexivity. Qed.

Lemma lineMask_setInvert s b w h gray :
  lineMask (setInvert b s) w h gray = lineMask s w h gray.
Proof. destruct s; reflexivity. Qed.

Lemma classify_setInvert img s b :
  classify img (setInvert b s)
  = option_map (map (fun isLine => if b then negb isLine else isLine))
      (match grayBufferOf img s with
       | None => None
       | Some gray => lineMask s (width img) (height img) gray
       end).
Proof.
  unfold classify. rewrite grayBufferOf_setInvert.
  destruct (grayBufferOf img s) as [gray|]; [|reflexivity].
  rewrite lineMask_setInvert.
  destruct (lineMask s (width img) (height img) gray); [|reflexivity].
  simpl. f_equal.
Qed.

(** C9: the mirror of the final copy, read twice, gives the buffer back,
    so the output with [flipX] on, mirrored once more, is the output with
    [flipX] off; and the invert step applied twice gives every pixel its
    line/background value back: the classification painted with [invert]
    on is the negation, pixel by pixel, of the one painted with it off. *)
Theorem flip_twice_invert_twice (img : ImageData) (s : StencilSettings) :
  wf_image img ->
  (forall buf, length buf = Z.to_nat (width img * height img * 4) ->
     render true (width img) (height img)
       (render true (width img) (height img) buf) = buf)
  /\ option_map (fun r => render true (width img) (height img)
                            (data (processed r)))
       (processStencil img (setFlipX true s))
     = option_map (fun r => data (processed r))
         (processStencil img (setFlipX false s))
  /\ (forall isLine,
        applyInvert (setInvert true s) (applyInvert (setInvert true s) isLine)
        = isLine)
  /\ classify img (setInvert true s)
     = option_map (map negb) (classify img (setInvert false s))
  /\ option_map (map negb) (classify img (setInvert true s))
     = classify img (setInvert false s).
Proof.
  intros (Hw & Hh & Hlen & _).
  split; [|split; [|split; [|split]]].
  - intros buf Hbuf. rewrite render_mirror_twice by assumption.
    now apply render_plain.
  - rewrite !processStencil_classify, !classify_setFlipX.
    destruct (classify img s) as [isLine|] eqn:E; [|reflexivity].
    simpl. f_equal. destruct s; simpl.
    rewrite render_mirror_twice by assumption. reflexivity.
  - intros isLine. destruct s; unfold applyInvert; simpl.
    apply negb_involutive.
  - rewrite !classify_setInvert.
    destruct (grayBufferOf img s) as [gray|]; [|reflexivity].
    destruct (lineMask s (width img) (height img) gray); [|reflexivity].
    simpl. f_equal. rewrite map_map. apply map_ext. reflexivity.
  - rewrite !classify_setInvert.
    destruct (grayBufferOf img s) as [gray|]; [|reflexivity].
    destruct (lineMask s (width img) (height img) gray); [|reflexivity].
    simpl. f_equal. rewrite !map_map. apply map_ext.
    intros b. apply negb_involutive.
Qed.

Lemma flip_twice_invert_twice_witness :
  wf_image (mkImageData 2 1 [10; 10; 10; 255; 240; 240; 240; 255])
  /\ option_map (fun r => render true 2 1 (data (processed r)))
       (processStencil (mkImageData 2 1 [10; 10; 10; 255; 240; 240; 240; 255])
          (setFlipX true (Scenario.thresholdWarn 50 false)))
     = Some [0; 0; 0; 255; 255; 255; 255; 255].
Proof.
  assert (Hwf : wf_image
                  (mkImageData 2 1 [10; 10; 10; 255; 240; 240; 240; 255])).
  { unfold wf_image, byte. simpl.
    repeat split; try lia; repeat constructor; lia. }
  split; [exact Hwf|].
  pose proof (proj1 (proj2 (flip_twice_invert_twice _
                              (Scenario.thresholdWarn 50 false) Hwf))) as E.
  simpl width in E. simpl height in E.
  rewrite E. vm_compute. reflexivity.
Defined.

End StencilFacts.
(** ** The line decision *)

Module LineDecision.
Import Stencil ArrayFacts Scenario Worded.

Lemma at_map_zrange {B} (f : Z -> B) n i :
  0 <= i < n -> at_ (map f (zrange 0 n)) i = Some (f i).
Proof.
  intros Hi. unfold at_. destruct (Z.ltb_spec i 0); [lia|].
  rewrite nth_error_map, zrange_nth by lia.
  simpl. do 2 f_equal. lia.
Qed.

(** C2, as the source decides it: in mixed mode the value of [isLine]
    before the invert step is true exactly when the dilated magnitude
    exceeds [detail * 2.55] or the smoothed luminance is not above 128;
    a luminance of exactly 128 is a line. *)
Theorem mixed_line_decision (img : ImageData) (s : StencilSettings)
    (gray dil : list float) :
  mode s = Mixed ->
  grayBufferOf img s = Some gray ->
  dilate s (width img) (height img) (sobel s (width img) (height img) gray)
    = Some dil ->
  exists mask,
    lineMask s (width img) (height img) gray = Some mask
    /\ forall i, 0 <= i < width img * height img ->
         at_ mask i
         = Some ((threshold s <? getF dil i)%float
                 || negb (128 <? getF gray i)%float).
Proof.
  intros Hmode _ Hdil. unfold lineMask. rewrite Hmode, Hdil.
  eexists; split; [reflexivity|].
  intros i Hi. rewrite at_map_zrange by assumption.
  unfold edgeIsLine. rewrite Hmode.
  destruct (128 <? getF gray i)%float; reflexivity.
Qed.

Lemma mixed_line_decision_witness :
  mode mixed50 = Mixed
  /\ exists mask,
       lineMask mixed50 4 4 (repeat 128%float 16) = Some mask
       /\ at_ mask 5 = Some true.
Proof.
  split; [reflexivity|].
  destruct (mixed_line_decision (uniform 4 4 128) mixed50
              (repeat 128%float 16) (repeat 0%float 16))
    as (mask & Hmask & Hat);
    [reflexivity | vm_compute; reflexivity | vm_compute; reflexivity |].
  exists mask. split; [exact Hmask|].
  rewrite (Hat 5) by (simpl; lia). vm_compute. reflexivity.
Defined.

(** A uniform 4x4 image of gray 128 in mixed mode with detail 50: the
    luminance is 128 everywhere and no edge is found, so the worded
    criterion is false at every pixel, yet every pixel is a line. *)
Lemma mixed_at_128_counterexample :
  grayBufferOf (uniform 4 4 128) mixed50 = Some (repeat 128%float 16)
  /\ dilate mixed50 4 4 (sobel mixed50 4 4 (repeat 128%float 16))
     = Some (repeat 0%float 16)
  /\ lineMask mixed50 4 4 (repeat 128%float 16) = Some (repeat true 16)
  /\ map (mixedIsLine mixed50 (repeat 0%float 16) (repeat 128%float 16))
       (zrange 0 16) = repeat false 16.
Proof. vm_compute. repeat split. Qed.

(** C8, as the source computes it: on the 4x4 image of gray (128,128,128)
    with contrast 0, brightness 0, threshold mode and detail 50 the
    threshold is the binary64 product [50 * 2.55], which is
    127.49999999999999 and not 127.5; [128 < threshold] is false, every
    pixel is background and the output is opaque white everywhere.  This
    holds for every blur radius of the slider and whatever the fields the
    scenario leaves open. *)
Theorem scenario1_all_white (edgeIntensity thickness : float)
    (blur : Z) (flipX : bool) (lineColor : string)
    (showThermalWarnings : bool) :
  0 <= blur <= 10 ->
  let s := scenario1 edgeIntensity thickness (Js.ofZ blur) flipX lineColor
             showThermalWarnings in
  threshold s = 127.49999999999999%float
  /\ (128 <? threshold s)%float = false
  /\ classify (uniform 4 4 128) s = Some (repeat false 16)
  /\ processStencil (uniform 4 4 128) s
     = Some (mkResult (mkImageData 4 4 (repeat 255 64))
               (if showThermalWarnings then Some (blankImage 4 4)
                else None)).
Proof.
  intros Hblur s. subst s.
  assert (Hcases : blur = 0 \/ blur = 1 \/ blur = 2 \/ blur = 3 \/ blur = 4
                   \/ blur = 5 \/ blur = 6 \/ blur = 7 \/ blur = 8
                   \/ blur = 9 \/ blur = 10) by lia.
  repeat (destruct Hcases as [-> | Hcases]); try subst blur;
    destruct flipX, showThermalWarnings; vm_compute; repeat split.
Qed.

Lemma scenario1_all_white_witness :
  0 <= 2 <= 10
  /\ processStencil (uniform 4 4 128)
       (scenario1 80 2 (Js.ofZ 2) false "#000000" false)
     = Some (mkResult (mkImageData 4 4 (repeat 255 64)) None).
Proof.
  split; [lia|].
  apply (scenario1_all_white 80 2 2 false "#000000" false). lia.
Defined.

(** The threshold of scenario 1 is not 127.5. *)
Lemma threshold_50_counterexample :
  threshold (scenario1 80 2 2 false "#000000" false) <> 127.5%float.
Proof.
  intros H.
  assert (E : PrimFloat.eqb
                (threshold (scenario1 80 2 2 false "#000000" false))
                127.5%float = true) by (rewrite H; reflexivity).
  vm_compute in E. discriminate E.
Qed.

End LineDecision.
(** ** Settings outside their documented range *)

Module Clamping.
Import Stencil Scenario Worded.

Lemma clampTo_within lo hi x : within lo hi x = true -> clampTo lo hi x = x.
Proof.
  unfold within, clampTo. intros H.
  apply andb_true_iff in H as [Hlo Hhi].
  now rewrite (FloatOrder.leb_ltb_false _ _ Hlo),
              (FloatOrder.leb_ltb_false _ _ Hhi).
Qed.

Lemma clampSettings_inRange s : inRange s = true -> clampSettings s = s.
Proof.
  unfold inRange, clampSettings. intros H.
  do 5 (apply andb_true_iff in H as [H ?]).
  rewrite !clampTo_within by assumption.
  destruct s; reflexivity.
Qed.

(** The call returns whenever the two radii are finite. *)
Lemma processStencil_returns img s :
  blurReturns s = true -> dilateReturns s = true ->
  exists r, processStencil img s = Some r.
Proof.
  unfold blurReturns, dilateReturns, processStencil, grayBufferOf, smooth,
    lineMask, dilate.
  intros Hb Hd.
  destruct (0 <? smoothing s)%float;
    [destruct (Js.loopRadius (smoothing s)); [|discriminate]|];
    (destruct (mode s); [| eexists; reflexivity |];
     (destruct (1 <? thickness s)%float;
      [destruct (Js.loopRadius (thickness s / 2)%float); [|discriminate]|]));
    eexists; reflexivity.
Qed.

(** C3, as the source behaves: [processStencil] neither clamps nor rejects
    a Settings value.  It returns a result whenever the blur and dilation
    radii are finite, and for each of the six numeric fields there are an
    image and Settings with that field alone outside its documented range
    on which the output differs from the output on the clamped Settings.
    Clamping leaves Settings unchanged when every field is inside its
    range, and only then is the result known to be the result on the
    clamped Settings. *)
Theorem settings_used_unclamped (img : ImageData) (s : StencilSettings) :
  (blurReturns s = true -> dilateReturns s = true ->
   exists r, processStencil img s = Some r)
  /\ (inRange s = true ->
      clampSettings s = s
      /\ processStencil img (clampSettings s) = processStencil img s)
  /\ (forall f : Field,
        exists img' s' r r',
          onlyOutside f s' = true
          /\ processStencil img' s' = Some r
          /\ processStencil img' (clampSettings s') = Some r'
          /\ data (processed r) <> data (processed r')).
Proof.
  split; [apply processStencil_returns|]. split.
  - intros H. rewrite (clampSettings_inRange s H). auto.
  - intros f.
    exists (fst (outOfRange f)), (snd (outOfRange f)).
    destruct f;
      (eexists _, _; split; [reflexivity|];
       split; [vm_compute; reflexivity|];
       split; [vm_compute; reflexivity|];
       vm_compute; intros E; discriminate E).
Qed.

Lemma settings_used_unclamped_witness :
  inRange DEFAULT_SETTINGS = true
  /\ blurReturns (thresholdWarn 150 false) = true
  /\ dilateReturns (thresholdWarn 150 false) = true
  /\ processStencil (uniform 1 1 255) (clampSettings DEFAULT_SETTINGS)
     = processStencil (uniform 1 1 255) DEFAULT_SETTINGS
  /\ exists r,
       processStencil (uniform 1 1 255) (thresholdWarn 150 false) = Some r.
Proof.
  split; [reflexivity|]. split; [reflexivity|]. split; [reflexivity|].
  split.
  - apply (settings_used_unclamped (uniform 1 1 255) DEFAULT_SETTINGS).
    reflexivity.
  - apply (settings_used_unclamped (uniform 1 1 255) (thresholdWarn 150 false));
      reflexivity.
Defined.

(** Detail 150 on one white pixel in threshold mode: the threshold is
    382.5 and the pixel becomes a line, with detail clamped to 100 the
    threshold is below 255 and the pixel stays white. *)
Lemma detail_150_counterexample :
  inRange (thresholdWarn 150 false) = false
  /\ processStencil (uniform 1 1 255) (thresholdWarn 150 false)
     <> processStencil (uniform 1 1 255)
          (clampSettings (thresholdWarn 150 false)).
Proof.
  split; [reflexivity|].
  vm_compute. intros H. discriminate H.
Qed.

End Clamping.

(** ** The thermal overlay of the pipeline *)

Module ThermalFlag.
Import Stencil Scenario Worded.

(** C1 at a 3x3 image of gray 150 turned into black lines (threshold mode,
    detail 100): the centre pixel is a black line pixel of the final
    buffer, the original red channel is 150 with alpha 255, and the
    overlay stays transparent there. *)
Theorem flag_missing_on_mid_gray :
  processStencil (uniform 3 3 150) (thresholdWarn 100 false)
  = Some (mkResult (uniform 3 3 0) (Some (blankImage 3 3)))
  /\ riskFlag (uniform 3 3 150) (uniform 3 3 0) 4 = true
  /\ map (fun k => getB (data (blankImage 3 3)) (4 * 4 + k)) (zrange 0 4)
     = [0; 0; 0; 0].
Proof. vm_compute. repeat split. Qed.

End ThermalFlag.
(** ** The grid of segmentImage *)

Module SegmentFacts.
Import Segment ArrayFacts.

Lemma ceilDiv_bounds a b :
  1 <= a -> 1 <= b -> 1 <= ceilDiv a b /\ a <= b * ceilDiv a b.
Proof.
  intros Ha Hb. unfold ceilDiv.
  pose proof (Z.div_mod (- a) b ltac:(lia)) as E.
  pose proof (Z.mod_pos_bound (- a) b ltac:(lia)) as B.
  split; nia.
Qed.

Lemma ceilDiv_zero b : ceilDiv 0 b = 0.
Proof. unfold ceilDiv. destruct b; reflexivity. Qed.

Lemma flat_map_nil {A B} (f : A -> list B) l :
  (forall a, In a l -> f a = []) -> flat_map f l = [].
Proof.
  induction l as [|a l IH]; simpl; intros H; [reflexivity|].
  rewrite (H a) by auto. apply IH. auto.
Qed.

(** The grid is empty when there is no row or no column. *)
Lemma empty_grid {B} (f : Z -> Z -> B) rows cols :
  rows <= 0 \/ cols <= 0 ->
  flat_map (fun r => map (f r) (zrange 0 cols)) (zrange 0 rows) = [].
Proof.
  intros H. apply flat_map_nil. intros r Hr. apply zrange_In in Hr.
  destruct H as [H|H]; [lia|].
  unfold zrange. now replace (Z.to_nat (cols - 0)) with 0%nat by lia.
Qed.

Lemma segmentImage_In canvas rows cols parts pt :
  segmentImage canvas rows cols = Returned parts ->
  In pt parts <->
  has2d canvas = true
  /\ exists r c, 0 <= r < rows /\ 0 <= c < cols
       /\ pt = part (canvasWidth canvas) (canvasHeight canvas) rows cols r c.
Proof.
  unfold segmentImage. destruct (has2d canvas); simpl.
  - destruct ((0 <? rows) && (0 <? cols)
              && ((canvasWidth canvas =? 0) || (canvasHeight canvas =? 0)));
      [discriminate|].
    intros E. injection E as <-.
    rewrite in_flat_map. split.
    + intros (r & Hr & Hin). apply in_map_iff in Hin as (c & <- & Hc).
      apply zrange_In in Hr. apply zrange_In in Hc.
      split; [reflexivity|]. exists r, c. auto.
    + intros (_ & r & c & Hr & Hc & ->).
      exists r. split; [apply zrange_In; lia|].
      apply in_map. apply zrange_In. lia.
  - intros E. injection E as <-.
    split; [intros []|]. intros [H _]. discriminate H.
Qed.

(** On a canvas with pixels the call returns the whole grid. *)
Lemma segmentImage_returns W H rows cols :
  1 <= W -> 1 <= H ->
  segmentImage (mkCanvas W H true) rows cols
  = Returned (flat_map (fun r => map (fun c => part W H rows cols r c)
                                   (zrange 0 cols))
                (zrange 0 rows)).
Proof.
  intros HW HH. unfold segmentImage. cbn [has2d canvasWidth canvasHeight negb].
  destruct (Z.eqb_spec W 0); [lia|]. destruct (Z.eqb_spec H 0); [lia|].
  now rewrite andb_false_r.
Qed.

(** One axis of a part: the extent lies in the board and contains the
    grid cell, which meets neither band. *)
Lemma axis_inside size count k p :
  let seg := ceilDiv size count in
  let lead := if 0 <? k then overlap else 0 in
  let trail := if k <? count - 1 then overlap else 0 in
  let x := Z.max 0 (k * seg - lead) in
  let w := Z.min (size - x) (seg + lead + trail) in
  x <= p < x + w -> 0 <= p < size.
Proof. simpl. lia. Qed.

Lemma axis_cell size count k p :
  let seg := ceilDiv size count in
  let lead := if 0 <? k then overlap else 0 in
  let trail := if k <? count - 1 then overlap else 0 in
  let x := Z.max 0 (k * seg - lead) in
  let w := Z.min (size - x) (seg + lead + trail) in
  k * seg <= p < (k + 1) * seg -> 0 <= p < size ->
  x <= p < x + w
  /\ inLeadingBand size count k p = false
  /\ inTrailingBand size count k p = false.
Proof.
  simpl. intros Hcell Hp. unfold inLeadingBand, inTrailingBand, overlap.
  split; [|split].
  - destruct (0 <? k), (k <? count - 1); lia.
  - destruct (Z.ltb_spec (p) (k * ceilDiv size count)); [lia|].
    now rewrite andb_false_r.
  - destruct (Z.leb_spec ((k + 1) * ceilDiv size count) p); [lia|].
    now rewrite andb_false_r.
Qed.

(** C7: for a [W] x [H] board and a grid of [rows] x [cols] with all four
    at least 1, a point lies in the board exactly when it lies in the
    source rectangle of some part of [segmentImage] outside that part's
    overlap bands: the rectangles without their bands cover
    [[0,W) x [0,H)] and nothing else, with no gap. *)
Theorem tiles_cover_board (W H rows cols px py : Z) :
  1 <= W -> 1 <= H -> 1 <= rows -> 1 <= cols ->
  (0 <= px < W /\ 0 <= py < H) <->
  (exists parts r c,
      segmentImage (mkCanvas W H true) rows cols = Returned parts
      /\ 0 <= r < rows /\ 0 <= c < cols
      /\ In (part W H rows cols r c) parts
      /\ inCore W H rows cols r c px py = true).
Proof.
  intros HW HH Hrows Hcols.
  pose proof (segmentImage_returns W H rows cols HW HH) as Hret.
  destruct (ceilDiv_bounds W cols HW Hcols) as [Hsw Hcw].
  destruct (ceilDiv_bounds H rows HH Hrows) as [Hsh Hch].
  split.
  - intros [Hpx Hpy].
    set (sw := ceilDiv W cols) in *. set (sh := ceilDiv H rows) in *.
    eexists _, (py / sh), (px / sw). split; [exact Hret|].
    pose proof (Z.div_mod px sw ltac:(lia)) as Ex.
    pose proof (Z.mod_pos_bound px sw ltac:(lia)) as Bx.
    pose proof (Z.div_mod py sh ltac:(lia)) as Ey.
    pose proof (Z.mod_pos_bound py sh ltac:(lia)) as By.
    assert (Hc : 0 <= px / sw < cols).
    { split; [apply Z.div_pos; lia|].
      apply Z.div_lt_upper_bound; nia. }
    assert (Hr : 0 <= py / sh < rows).
    { split; [apply Z.div_pos; lia|].
      apply Z.div_lt_upper_bound; nia. }
    split; [exact Hr|]. split; [exact Hc|]. split.
    + apply (segmentImage_In _ _ _ _ _ Hret). split; [reflexivity|].
      exists (py / sh), (px / sw). auto.
    + destruct (axis_cell W cols (px / sw) px) as (Rx & Lx & Tx);
        [fold sw; nia | lia |].
      destruct (axis_cell H rows (py / sh) py) as (Ry & Ly & Ty);
        [fold sh; nia | lia |].
      unfold inCore. rewrite Lx, Tx, Ly, Ty. simpl.
      rewrite !andb_true_r. unfold inRect, part. simpl.
      fold sw sh.
      repeat (apply andb_true_iff; split);
        first [apply Z.leb_le | apply Z.ltb_lt]; lia.
  - intros (parts & r & c & _ & Hr & Hc & _ & Hcore).
    unfold inCore in Hcore.
    do 4 (apply andb_true_iff in Hcore as [Hcore _]).
    unfold inRect, part in Hcore. simpl in Hcore.
    apply andb_true_iff in Hcore as [Hcore Hy2].
    apply andb_true_iff in Hcore as [Hcore Hy1].
    apply andb_true_iff in Hcore as [Hx1 Hx2].
    apply Z.leb_le in Hx1, Hy1. apply Z.ltb_lt in Hx2, Hy2.
    split.
    + apply (axis_inside W cols c px). simpl. lia.
    + apply (axis_inside H rows r py). simpl. lia.
Qed.

Lemma tiles_cover_board_witness :
  1 <= 100 /\ 1 <= 80 /\ 1 <= 2 /\ 1 <= 3
  /\ exists parts r c,
       segmentImage (mkCanvas 100 80 true) 2 3 = Returned parts
       /\ 0 <= r < 2 /\ 0 <= c < 3
       /\ In (part 100 80 2 3 r c) parts
       /\ inCore 100 80 2 3 r c 99 79 = true.
Proof.
  repeat (split; [lia|]).
  apply (tiles_cover_board 100 80 2 3 99 79); lia.
Defined.

Lemma grid_length {B} (f : Z -> Z -> B) rows cols :
  0 <= rows -> 0 <= cols ->
  length (flat_map (fun r => map (f r) (zrange 0 cols)) (zrange 0 rows))
  = Z.to_nat (rows * cols).
Proof.
  intros Hr Hc.
  rewrite (flat_map_chunks_length _ (Z.to_nat cols)).
  - rewrite zrange_length. nia.
  - intros r _. now rewrite length_map, zrange_length, Z.sub_0_r.
Qed.

(** C5, as the source behaves: [segmentImage] has no guard of its own and
    no [ConfigurationError].  With [rows] or [cols] zero (or negative), or
    without a 2D context, no loop body runs and it returns the empty list
    without signalling anything.  With a source canvas of width or height
    zero and a grid of at least one cell, the first [drawImage] throws an
    [InvalidStateError], after the canvas of the first part has been
    created with width or height zero; no part is returned.  On a canvas
    with pixels it returns [rows * cols] parts. *)
Theorem segmentImage_zero_inputs (canvas : HTMLCanvasElement)
    (rows cols : Z) :
  (rows <= 0 \/ cols <= 0 -> segmentImage canvas rows cols = Returned [])
  /\ (has2d canvas = false -> segmentImage canvas rows cols = Returned [])
  /\ (has2d canvas = true -> 1 <= rows -> 1 <= cols ->
      canvasWidth canvas = 0 \/ canvasHeight canvas = 0 ->
      exists w h,
        segmentImage canvas rows cols = Threw InvalidStateError w h
        /\ (canvasWidth canvas = 0 -> w = 0)
        /\ (canvasHeight canvas = 0 -> h = 0))
  /\ (has2d canvas = true -> 1 <= rows -> 1 <= cols ->
      1 <= canvasWidth canvas -> 1 <= canvasHeight canvas ->
      exists parts,
        segmentImage canvas rows cols = Returned parts
        /\ length parts = Z.to_nat (rows * cols)).
Proof.
  split; [|split; [|split]].
  - intros H. unfold segmentImage. destruct (has2d canvas); [|reflexivity].
    cbn [negb].
    replace ((0 <? rows) && (0 <? cols)) with false.
    + cbn [andb]. now rewrite empty_grid.
    + destruct (Z.ltb_spec 0 rows), (Z.ltb_spec 0 cols);
        try reflexivity; lia.
  - intros H. unfold segmentImage. now rewrite H.
  - intros H2d Hr Hc Hzero. unfold segmentImage. rewrite H2d. cbn [negb].
    destruct (Z.ltb_spec 0 rows); [|lia].
    destruct (Z.ltb_spec 0 cols); [|lia].
    replace ((canvasWidth canvas =? 0) || (canvasHeight canvas =? 0))
      with true
      by (destruct Hzero as [-> | ->];
          [reflexivity | now rewrite orb_true_r]).
    cbn [andb]. eexists _, _. split; [reflexivity|].
    unfold part. cbn [partW partH]. unfold overlap.
    split; intros E; rewrite E, ceilDiv_zero;
      destruct (0 <? cols - 1), (0 <? rows - 1); simpl; lia.
  - intros H2d Hr Hc HW HH. destruct canvas as [W H has].
    cbn [has2d canvasWidth canvasHeight] in *. subst has.
    eexists. split; [apply segmentImage_returns; lia|].
    apply grid_length; lia.
Qed.

Lemma segmentImage_zero_inputs_witness :
  (0 <= 0 \/ 3 <= 0) /\ has2d (mkCanvas 0 80 true) = true
  /\ segmentImage (mkCanvas 100 80 true) 0 3 = Returned []
  /\ exists w h,
       segmentImage (mkCanvas 0 80 true) 2 3 = Threw InvalidStateError w h
       /\ w = 0.
Proof.
  split; [left; lia|]. split; [reflexivity|].
  destruct (segmentImage_zero_inputs (mkCanvas 100 80 true) 0 3)
    as (Hempty & _).
  destruct (segmentImage_zero_inputs (mkCanvas 0 80 true) 2 3)
    as (_ & _ & Hthrow & _).
  split; [apply Hempty; left; lia|].
  destruct Hthrow as (w & h & E & Hw & _);
    [reflexivity | lia | lia | left; reflexivity |].
  exists w, h. split; [exact E | apply Hw; reflexivity].
Defined.

(** A grid with no row on a 100 x 80 canvas: the call is not rejected, it
    returns normally with an empty list; and the error on a 0 x 0 canvas
    comes from [drawImage], when a part canvas exists already. *)
Lemma zero_rows_counterexample :
  segmentImage (mkCanvas 100 80 true) 0 3 = Returned []
  /\ segmentImage (mkCanvas 0 0 true) 1 1 = Threw InvalidStateError 0 0.
Proof. split; reflexivity. Qed.

End SegmentFacts.

(** ** The segment export *)

Module ExportFacts.
Import BoardExport ArrayFacts.

Lemma crop_some readBack call f :
  In f (crop readBack call) ->
  readBack call = Some (content f) /\ hasContent (content f) = true.
Proof.
  unfold crop. destruct (readBack call) as [data|]; [|intros []].
  destruct (hasContent data) eqn:E; [|intros []].
  intros [<-|[]]. auto.
Qed.

(** A tile whose bytes are all at least 250 has no content. *)
Lemma white_has_no_content data :
  Forall (fun b => 250 <= b) data -> hasContent data = false.
Proof.
  intros Hall. unfold hasContent.
  apply not_true_is_false. intros H.
  apply existsb_exists in H as (i & _ & Hi).
  assert (Hlt : forall j, Js.ltU (at_ data j) 250 = false).
  { intros j. unfold Js.ltU, at_. destruct (j <? 0); [reflexivity|].
    destruct (nth_error data (Z.to_nat j)) as [v|] eqn:E; [|reflexivity].
    apply nth_error_In in E. rewrite Forall_forall in Hall.
    specialize (Hall v E). apply Z.ltb_ge. lia. }
  unfold nonWhiteAt in Hi. rewrite !Hlt in Hi. discriminate Hi.
Qed.

(** C4: a tile whose stride scan finds every sampled red, green and blue
    byte at 250 or more pushes no segment, every exported file passed the
    scan, and when no segment is left the export raises the no-content
    alert and downloads nothing; otherwise exactly the segments that
    passed are downloaded.  A board that reads back white everywhere gives
    the alert. *)
Theorem blank_tiles_dropped (readBack : CropCall -> option (list Z))
    (boardMode : BoardMode) (splitMode : SplitMode) (parts : Z) :
  let segments := segmentsOf readBack boardMode splitMode parts in
  (forall data,
      hasContent data = false <->
      forall i, In i (sampleOffsets (Z.of_nat (length data))) ->
                Js.ltU (at_ data i) 250 = false
                /\ Js.ltU (at_ data (i + 1)) 250 = false
                /\ Js.ltU (at_ data (i + 2)) 250 = false)
  /\ (forall call data,
        readBack call = Some data -> hasContent data = false ->
        crop readBack call = [])
  /\ (forall f, In f segments ->
        hasContent (content f) = true
        /\ exists call, In call (cropCalls boardMode splitMode parts)
                        /\ readBack call = Some (content f))
  /\ (segments = [] ->
      performExport readBack true boardMode splitMode parts
      = Alerted noContentMessage)
  /\ (segments <> [] ->
      performExport readBack true boardMode splitMode parts
      = Downloaded segments)
  /\ ((forall call data, readBack call = Some data ->
                         Forall (fun b => 250 <= b) data) ->
      performExport readBack true boardMode splitMode parts
      = Alerted noContentMessage).
Proof.
  intros segments.
  assert (Hsegs : forall f, In f segments ->
            hasContent (content f) = true
            /\ exists call, In call (cropCalls boardMode splitMode parts)
                            /\ readBack call = Some (content f)).
  { intros f Hf. unfold segments, segmentsOf in Hf.
    apply in_flat_map in Hf as (call & Hcall & Hin).
    apply crop_some in Hin as [Hread Hcontent]. eauto. }
  assert (Hempty : segments = [] ->
            performExport readBack true boardMode splitMode parts
            = Alerted noContentMessage).
  { intros E. unfold performExport. simpl. fold segments. now rewrite E. }
  split; [|split; [|split; [|split; [|split]]]].
  - intros data. unfold hasContent. split.
    + intros H i Hi.
      assert (Hn : nonWhiteAt data i = false).
      { apply not_true_is_false. intros Ht.
        apply not_true_iff_false in H. apply H.
        apply existsb_exists. eauto. }
      unfold nonWhiteAt in Hn.
      apply orb_false_iff in Hn as [Hn Hb].
      apply orb_false_iff in Hn as [Hr Hg]. auto.
    + intros H. apply not_true_is_false. intros Ht.
      apply existsb_exists in Ht as (i & Hi & Hn).
      destruct (H i Hi) as (Hr & Hg & Hb).
      unfold nonWhiteAt in Hn. rewrite Hr, Hg, Hb in Hn. discriminate Hn.
  - intros call data Hread Hno. unfold crop. now rewrite Hread, Hno.
  - exact Hsegs.
  - exact Hempty.
  - intros Hne. unfold performExport. simpl. fold segments.
    destruct segments; [congruence|reflexivity].
  - intros Hwhite. apply Hempty.
    destruct segments as [|f rest] eqn:E; [reflexivity|].
    destruct (Hsegs f (or_introl eq_refl)) as (Hc & call & _ & Hread).
    rewrite (white_has_no_content _ (Hwhite _ _ Hread)) in Hc.
    discriminate Hc.
Qed.

Lemma blank_tiles_dropped_witness :
  (forall call data,
      (fun _ : CropCall => Some (repeat 255 400)) call = Some data ->
      Forall (fun b => 250 <= b) data)
  /\ performExport (fun _ => Some (repeat 255 400)) true tabloid quadrant 4
     = Alerted noContentMessage.
Proof.
  assert (Hwhite : forall (call : CropCall) data,
            (fun _ : CropCall => Some (repeat 255 400)) call = Some data ->
            Forall (fun b => 250 <= b) data).
  { intros call data H.
    assert (E : data = repeat 255 400) by congruence. subst data.
    apply Forall_forall. intros b Hb. apply repeat_spec in Hb. lia. }
  split; [exact Hwhite|].
  apply (blank_tiles_dropped (fun _ => Some (repeat 255 400))
           tabloid quadrant 4).
  exact Hwhite.
Defined.

End ExportFacts.

(** ** Detail and the number of line pixels *)

Module DetailMonotone.
Import Stencil Scenario.

Lemma threshold_mono s d1 d2 :
  (d1 <=? d2)%float = true ->
  (threshold (setDetail d1 s) <=? threshold (setDetail d2 s))%float = true.
Proof.
  intros H. unfold threshold. destruct s; simpl.
  apply (Rounding.mul_mono_l 2.55%float d1 d2 5742089524897382 (-51));
    [reflexivity | reflexivity | exact H].
Qed.

Lemma count_mono {A} (f g : A -> bool) l :
  (forall a, f a = true -> g a = true) ->
  (count_occ bool_dec (map f l) true
   <= count_occ bool_dec (map g l) true)%nat.
Proof.
  intros H. induction l as [|a l IH]; simpl; [lia|].
  destruct (f a) eqn:Ef.
  - rewrite (H a Ef).
    destruct (bool_dec true true); [lia|congruence].
  - destruct (bool_dec false true); [congruence|].
    destruct (bool_dec (g a) true); lia.
Qed.

Lemma grayBufferOf_setDetail img s d :
  grayBufferOf img (setDetail d s) = grayBufferOf img s.
Proof. destruct s; reflexivity. Qed.

Lemma blur_returns img s :
  blurReturns s = true -> exists gray, grayBufferOf img s = Some gray.
Proof.
  unfold blurReturns, grayBufferOf, smooth.
  destruct (0 <? smoothing s)%float; [|eauto].
  destruct (Js.loopRadius (smoothing s)); [eauto|discriminate].
Qed.

Lemma lineCount_threshold img s d gray :
  mode s = Threshold -> invert s = false ->
  grayBufferOf img s = Some gray ->
  lineCount img (setDetail d s)
  = Some (count_occ bool_dec
            (map (fun i => (getF gray i <? threshold (setDetail d s))%float)
               (zrange 0 (width img * height img))) true).
Proof.
  intros Hmode Hinv Hgray.
  unfold lineCount, classify. rewrite grayBufferOf_setDetail, Hgray.
  unfold lineMask.
  replace (mode (setDetail d s)) with Threshold
    by (destruct s; simpl in *; congruence).
  simpl. f_equal. f_equal. rewrite map_map. apply map_ext.
  intros i. unfold applyInvert.
  replace (invert (setDetail d s)) with false
    by (destruct s; simpl in *; congruence).
  reflexivity.
Qed.

(** C6, with the invert flag off: for a fixed image and fixed Settings in
    threshold mode whose blur terminates, if [detail1 <= detail2] then the
    number of pixels painted as lines with [detail = detail1] is at most the
    number painted with [detail = detail2]. *)
Theorem detail_never_removes_lines (img : ImageData) (s : StencilSettings)
    (detail1 detail2 : float) :
  mode s = Threshold -> invert s = false -> blurReturns s = true ->
  (detail1 <=? detail2)%float = true ->
  exists n1 n2,
    lineCount img (setDetail detail1 s) = Some n1
    /\ lineCount img (setDetail detail2 s) = Some n2
    /\ (n1 <= n2)%nat.
Proof.
  intros Hmode Hinv Hblur Hle.
  destruct (blur_returns img s Hblur) as [gray Hgray].
  rewrite (lineCount_threshold img s detail1 gray Hmode Hinv Hgray).
  rewrite (lineCount_threshold img s detail2 gray Hmode Hinv Hgray).
  eexists; eexists. split; [reflexivity|]. split; [reflexivity|].
  apply count_mono. intros i Hi.
  apply (FloatOrder.ltb_leb_trans _ _ _ Hi).
  now apply threshold_mono.
Qed.

Lemma detail_never_removes_lines_witness :
  mode (thresholdWarn 50 false) = Threshold
  /\ invert (thresholdWarn 50 false) = false
  /\ blurReturns (thresholdWarn 50 false) = true
  /\ (30 <=? 60)%float = true
  /\ exists n1 n2,
       lineCount (uniform 2 2 100) (setDetail 30 (thresholdWarn 50 false))
       = Some n1
       /\ lineCount (uniform 2 2 100) (setDetail 60 (thresholdWarn 50 false))
          = Some n2
       /\ (n1 <= n2)%nat.
Proof.
  repeat (split; [reflexivity|]).
  apply (detail_never_removes_lines (uniform 2 2 100)
           (thresholdWarn 50 false) 30 60); reflexivity.
Defined.

(** With the invert flag on, raising detail from 0 to 100 on one pixel of
    gray 128 takes its line away. *)
Lemma inverted_detail_counterexample :
  mode (thresholdWarn 50 true) = Threshold
  /\ (0 <=? 100)%float = true
  /\ lineCount (uniform 1 1 128) (setDetail 0 (thresholdWarn 50 true))
     = Some 1%nat
  /\ lineCount (uniform 1 1 128) (setDetail 100 (thresholdWarn 50 true))
     = Some 0%nat.
Proof. vm_compute. repeat split. Qed.

End DetailMonotone.

(** ** Bounds of Math.max and Math.min *)

Module ClampFacts.

Lemma ltb_irrefl x : PrimFloat.ltb x x = false.
Proof.
  rewrite ltb_spec. unfold SFltb.
  pose proof (FloatOrder.SFcompare_antisym (Prim2SF x) (Prim2SF x)) as H.
  destruct (SFcompare (Prim2SF x) (Prim2SF x)) as [[]|]; try reflexivity.
  discriminate H.
Qed.

Lemma ltb_asym x y : PrimFloat.ltb x y = true -> PrimFloat.ltb y x = false.
Proof.
  rewrite !ltb_spec. unfold SFltb.
  rewrite (FloatOrder.SFcompare_antisym (Prim2SF x) (Prim2SF y)).
  destruct (SFcompare (Prim2SF x) (Prim2SF y)) as [[]|]; simpl;
    intros; try discriminate; reflexivity.
Qed.

Lemma ltb_nan_l y : PrimFloat.ltb nan y = false.
Proof. rewrite ltb_spec. reflexivity. Qed.

Lemma ltb_nan_r x : PrimFloat.ltb x nan = false.
Proof.
  rewrite ltb_spec. unfold SFltb.
  change (Prim2SF nan) with S754_nan.
  destruct (Prim2SF x); reflexivity.
Qed.

(** [Math.max(a, b)] is NaN, [a] or [b], and is below neither argument. *)
Lemma max_cases a b : Js.max a b = nan \/ Js.max a b = a \/ Js.max a b = b.
Proof.
  unfold Js.max.
  destruct (Js.isNaN a || Js.isNaN b); [auto|].
  destruct (PrimFloat.ltb a b); [auto|].
  destruct (PrimFloat.ltb b a); [auto|].
  destruct (classify a); auto.
Qed.

Lemma max_not_below_l a b : PrimFloat.ltb (Js.max a b) a = false.
Proof.
  unfold Js.max.
  destruct (Js.isNaN a || Js.isNaN b); [apply ltb_nan_l|].
  destruct (PrimFloat.ltb a b) eqn:Hab; [now apply ltb_asym|].
  destruct (PrimFloat.ltb b a) eqn:Hba; [apply ltb_irrefl|].
  destruct (classify a); first [exact Hba | apply ltb_irrefl].
Qed.

Lemma min_cases a b : Js.min a b = nan \/ Js.min a b = a \/ Js.min a b = b.
Proof.
  unfold Js.min.
  destruct (Js.isNaN a || Js.isNaN b); [auto|].
  destruct (PrimFloat.ltb b a); [auto|].
  destruct (PrimFloat.ltb a b); [auto|].
  destruct (classify a); auto.
Qed.

Lemma min_not_above_l a b : PrimFloat.ltb a (Js.min a b) = false.
Proof.
  unfold Js.min.
  destruct (Js.isNaN a || Js.isNaN b); [apply ltb_nan_r|].
  destruct (PrimFloat.ltb b a) eqn:Hba; [now apply ltb_asym|].
  destruct (PrimFloat.ltb a b) eqn:Hab; [apply ltb_irrefl|].
  destruct (classify a); first [exact Hab | apply ltb_irrefl].
Qed.

(** [Math.max(lo, Math.min(hi, x))] for [lo <= hi]. *)
Lemma clamp_within lo hi x :
  PrimFloat.ltb hi lo = false ->
  PrimFloat.ltb (Js.max lo (Js.min hi x)) lo = false
  /\ PrimFloat.ltb hi (Js.max lo (Js.min hi x)) = false.
Proof.
  intros Hlohi. split; [apply max_not_below_l|].
  destruct (max_cases lo (Js.min hi x)) as [-> | [-> | ->]].
  - apply ltb_nan_r.
  - exact Hlohi.
  - apply min_not_above_l.
Qed.

End ClampFacts.

(** ** Pass 1: the adjusted channels *)

Module AdjustFacts.
Import Stencil.

(** Whatever the contrast and brightness, also outside their ranges, an
    adjusted channel is never below 0 and never above 255 (it is a number of
    that range or NaN). *)
Theorem adjust_clamped (cf br : float) (c : Z) :
  PrimFloat.ltb (adjust cf br c) 0 = false
  /\ PrimFloat.ltb 255 (adjust cf br c) = false.
Proof.
  unfold adjust. apply ClampFacts.clamp_within. reflexivity.
Qed.

Lemma bytes_below (P : Z -> Prop) :
  (forall n, (n < 256)%nat -> P (Z.of_nat n)) ->
  forall c, 0 <= c <= 255 -> P c.
Proof.
  intros H c Hc. rewrite <- (Z2Nat.id c) by lia. apply H. lia.
Qed.

(** With contrast 0 and brightness 0 the contrast factor is 1, every channel
    byte passes pass 1 unchanged, and a gray pixel [(v, v, v)] gets the
    luminance [v] exactly once stored in the [Float32Array]. *)
Theorem identity_adjustment (s : StencilSettings) (c : Z) :
  contrast s = 0%float -> brightness s = 0%float -> 0 <= c <= 255 ->
  contrastFactor s = 1%float
  /\ adjust (contrastFactor s) (brightness s) c = Js.ofZ c
  /\ forall alpha,
       grayscale (contrastFactor s) (brightness s) [c; c; c; alpha]
       = [Js.ofZ c].
Proof.
  intros Hc Hb Hbyte. unfold contrastFactor. rewrite Hc, Hb.
  split; [reflexivity|].
  change ((259 * (0 + 255)) / (255 * (259 - 0)))%float with 1%float.
  revert c Hbyte. apply bytes_below. intros n Hn.
  do 256 (destruct n as [|n]; [vm_compute; split; reflexivity|]).
  lia.
Qed.

Lemma identity_adjustment_witness :
  contrast (Scenario.thresholdWarn 50 false) = 0%float
  /\ brightness (Scenario.thresholdWarn 50 false) = 0%float
  /\ 0 <= 200 <= 255
  /\ adjust (contrastFactor (Scenario.thresholdWarn 50 false))
       (brightness (Scenario.thresholdWarn 50 false)) 200 = 200%float.
Proof.
  split; [reflexivity|]. split; [reflexivity|]. split; [lia|].
  apply (identity_adjustment (Scenario.thresholdWarn 50 false) 200);
    [reflexivity | reflexivity | lia].
Defined.

End AdjustFacts.

(** ** The line colour *)

Module ColorFacts.
Import Stencil StencilView.

Lemma hexDigit_range c v : hexDigit c = Some v -> 0 <= v <= 15.
Proof.
  unfold hexDigit. set (n := Z.of_N (N_of_ascii c)).
  destruct (Z.leb_spec 48 n), (Z.leb_spec n 57), (Z.leb_spec 97 n),
    (Z.leb_spec n 102), (Z.leb_spec 65 n), (Z.leb_spec n 70); simpl;
    intros Hv; try discriminate Hv; injection Hv as <-; lia.
Qed.

Lemma parse_cases (digits : list (option Z)) :
  (exists a b c d e f,
      digits = [Some a; Some b; Some c; Some d; Some e; Some f])
  \/ match digits with
     | [Some a; Some b; Some c; Some d; Some e; Some f] =>
         mkRGB (16 * a + b) (16 * c + d) (16 * e + f)
     | _ => mkRGB 0 0 0
     end = black.
Proof.
  destruct digits as [|[a|] [|[b|] [|[c|] [|[d|] [|[e|] [|[f|] [|? ?]]]]]]];
    try (right; reflexivity).
  left. repeat eexists.
Qed.

(** For every string [hexToRgb] returns three bytes, and it returns black
    unless the string is six characters long, or seven with a leading [#];
    a leading [#] before six hexadecimal digits changes nothing. *)
Theorem hexToRgb_total (hex : string) :
  (0 <= red (hexToRgb hex) <= 255 /\ 0 <= green (hexToRgb hex) <= 255
   /\ 0 <= blue (hexToRgb hex) <= 255)
  /\ (hexToRgb hex <> black ->
      String.length hex = 6%nat
      \/ (String.length hex = 7%nat /\ exists rest, hex = String "#" rest))
  /\ (String.length hex = 6%nat -> hexToRgb hex <> black ->
      hexToRgb (String "#" hex) = hexToRgb hex).
Proof.
  assert (Hlen : forall body, length (list_ascii_of_string body)
                              = String.length body).
  { induction body; simpl; congruence. }
  split; [|split].
  - unfold hexToRgb.
    set (body := match hex with String "#"%char rest => rest | _ => hex end).
    destruct (parse_cases (map hexDigit (list_ascii_of_string body)))
      as [(a & b & c & d & e & f & E)|E].
    + rewrite E. cbn [red green blue].
      assert (Hin : forall v, In (Some v)
                (map hexDigit (list_ascii_of_string body)) -> 0 <= v <= 15).
      { intros v Hv. apply in_map_iff in Hv as (ch & Hch & _).
        eapply hexDigit_range; eauto. }
      rewrite E in Hin.
      pose proof (Hin a ltac:(simpl; auto)).
      pose proof (Hin b ltac:(simpl; auto)).
      pose proof (Hin c ltac:(simpl; auto 6)).
      pose proof (Hin d ltac:(simpl; auto 6)).
      pose proof (Hin e ltac:(simpl; auto 7)).
      pose proof (Hin f ltac:(simpl; auto 8)).
      lia.
    + rewrite E. unfold black. cbn [red green blue]. lia.
  - intros Hne. unfold hexToRgb in Hne.
    set (body := match hex with String "#"%char rest => rest | _ => hex end)
      in *.
    destruct (parse_cases (map hexDigit (list_ascii_of_string body)))
      as [(a & b & c & d & e & f & E)|E]; [|contradiction].
    assert (Hb : String.length body = 6%nat).
    { rewrite <- Hlen, <- (length_map hexDigit), E. reflexivity. }
    subst body. destruct hex as [|ch rest]; [discriminate Hb|].
    destruct (Ascii.ascii_dec ch "#") as [->|Hch].
    + right. simpl. split; [now rewrite Hb|]. eauto.
    + left. revert Hb.
      destruct ch as [[] [] [] [] [] [] [] []]; try (intros Hb; exact Hb);
        contradiction Hch; reflexivity.
  - intros H6 Hne. unfold hexToRgb at 1. cbn [hexToRgb].
    unfold hexToRgb.
    destruct hex as [|ch rest]; [discriminate H6|].
    destruct (Ascii.ascii_dec ch "#") as [->|Hch].
    + exfalso. apply Hne. unfold hexToRgb.
      simpl in H6.
      assert (Hr : length (map hexDigit (list_ascii_of_string rest)) = 5%nat)
        by (rewrite length_map, Hlen; lia).
      destruct (map hexDigit (list_ascii_of_string rest))
        as [|[a|] [|[b|] [|[c|] [|[d|] [|[e|] [|[f|] [|? ?]]]]]]];
        try discriminate Hr; reflexivity.
    + destruct ch as [[] [] [] [] [] [] [] []]; try reflexivity;
        contradiction Hch; reflexivity.
Qed.

Lemma hexToRgb_total_witness :
  hexToRgb "fFa001" <> black
  /\ String.length "fFa001" = 6%nat
  /\ hexToRgb "#fFa001" = mkRGB 255 160 1.
Proof.
  assert (Hne : hexToRgb "fFa001" <> black) by (vm_compute; discriminate).
  split; [exact Hne|]. split; [reflexivity|].
  rewrite (proj2 (proj2 (hexToRgb_total "fFa001")) eq_refl Hne).
  reflexivity.
Defined.

End ColorFacts.

(** ** The output buffer *)

Module OutputFacts.
Import Stencil StencilView ArrayFacts RenderFacts StencilFacts.

Lemma pixelOf_bytes buf i :
  pixelOf buf i
  = [getB buf (i * 4 + 0); getB buf (i * 4 + 1); getB buf (i * 4 + 2);
     getB buf (i * 4 + 3)].
Proof. reflexivity. Qed.

Lemma pixel_split w h i :
  0 < w -> 0 <= i < w * h ->
  exists y x, 0 <= y < h /\ 0 <= x < w /\ i = y * w + x.
Proof.
  intros Hw Hi. exists (i / w), (i mod w).
  pose proof (Z.div_mod i w ltac:(lia)) as E.
  pose proof (Z.mod_pos_bound i w ltac:(lia)) as B.
  assert (0 <= i / w) by (apply Z.div_pos; lia).
  assert (i / w < h) by (apply Z.div_lt_upper_bound; lia).
  repeat split; lia.
Qed.

(** The pixel the final copy writes at [(x, y)]. *)
Lemma render_pixel flip w h buf y x :
  0 <= y < h -> 0 <= x < w ->
  pixelOf (render flip w h buf) (y * w + x)
  = pixelOf buf (y * w + (if flip then w - 1 - x else x)).
Proof.
  intros Hy Hx. rewrite !pixelOf_bytes.
  rewrite (getB_at _ _ _ (render_at flip w h buf y x 0 Hy Hx ltac:(lia))),
    (getB_at _ _ _ (render_at flip w h buf y x 1 Hy Hx ltac:(lia))),
    (getB_at _ _ _ (render_at flip w h buf y x 2 Hy Hx ltac:(lia))),
    (getB_at _ _ _ (render_at flip w h buf y x 3 Hy Hx ltac:(lia))).
  reflexivity.
Qed.

Lemma painted_pixel rgb isLine j :
  0 <= j < Z.of_nat (length isLine) ->
  pixelOf (flat_map (paint rgb) isLine) j
  = paint rgb (nth (Z.to_nat j) isLine false).
Proof.
  intros Hj.
  assert (Hat : forall k, 0 <= k < 4 ->
    getB (flat_map (paint rgb) isLine) (j * 4 + k)
    = nth (Z.to_nat k) (paint rgb (nth (Z.to_nat j) isLine false)) 0).
  { intros k Hk. unfold getB, at_.
    destruct (Z.ltb_spec (j * 4 + k) 0); [lia|].
    replace (Z.to_nat (j * 4 + k))
      with (Z.to_nat j * 4 + Z.to_nat k)%nat by lia.
    rewrite (flat_map_chunks_nth _ 4%nat);
      [|intros [] _; reflexivity|lia].
    rewrite (nth_error_nth' isLine false) by lia.
    assert (Hlen : (Z.to_nat k
                    < length (paint rgb (nth (Z.to_nat j) isLine false)))%nat).
    { destruct (nth (Z.to_nat j) isLine false); simpl; lia. }
    now rewrite (nth_error_nth' _ 0 Hlen). }
  rewrite pixelOf_bytes, !Hat by lia.
  destruct (nth (Z.to_nat j) isLine false); reflexivity.
Qed.

(** The pixel of the output at [(x, y)] is the painted classification of the
    pixel it is read from. *)
Lemma output_pixel img s r isLine y x :
  processStencil img s = Some r -> classify img s = Some isLine ->
  0 <= y < height img -> 0 <= x < width img ->
  pixelOf (data (processed r)) (y * width img + x)
  = paint (hexToRgb (lineColor s))
      (nth (Z.to_nat (y * width img
                      + (if flipX s then width img - 1 - x else x)))
         isLine false).
Proof.
  intros Hr Hc Hy Hx.
  rewrite processStencil_classify, Hc in Hr. injection Hr as <-.
  cbn [processed data].
  rewrite render_pixel by assumption.
  apply painted_pixel.
  rewrite (classify_length _ _ _ Hc).
  destruct (flipX s); nia.
Qed.

(** Whenever [processStencil] returns, the output has the dimensions of the
    input, [width * height * 4] bytes, and every pixel is either opaque
    white or the opaque line colour: the alpha byte is always 255. *)
Theorem output_is_binary (img : ImageData) (s : StencilSettings)
    (r : StencilResult) :
  0 < width img -> 0 < height img ->
  processStencil img s = Some r ->
  width (processed r) = width img /\ height (processed r) = height img
  /\ length (data (processed r)) = Z.to_nat (width img * height img * 4)
  /\ forall i, 0 <= i < width img * height img ->
       (pixelOf (data (processed r)) i = whitePixel
        \/ pixelOf (data (processed r)) i = linePixel s)
       /\ getB (data (processed r)) (i * 4 + 3) = 255.
Proof.
  intros Hw Hh Hr.
  pose proof Hr as Hr'. rewrite processStencil_classify in Hr'.
  destruct (classify img s) as [isLine|] eqn:Hc; [|discriminate Hr'].
  injection Hr' as Er.
  split; [now rewrite <- Er|]. split; [now rewrite <- Er|].
  split; [rewrite <- Er; cbn [processed data]; apply render_length; lia|].
  intros i Hi.
  destruct (pixel_split _ _ i Hw Hi) as (y & x & Hy & Hx & ->).
  pose proof (output_pixel img s r isLine y x Hr Hc Hy Hx) as Hp.
  assert (Hcases : pixelOf (data (processed r)) (y * width img + x)
                   = whitePixel
                   \/ pixelOf (data (processed r)) (y * width img + x)
                      = linePixel s).
  { rewrite Hp. unfold paint, whitePixel, linePixel.
    destruct (nth _ isLine false); auto. }
  split; [exact Hcases|].
  rewrite pixelOf_bytes in Hcases. unfold whitePixel, linePixel in Hcases.
  destruct Hcases as [E|E]; injection E; auto.
Qed.

Lemma output_is_binary_witness :
  0 < 2 /\ 0 < 1
  /\ exists r,
       processStencil (mkImageData 2 1 [10; 10; 10; 255; 240; 240; 240; 7])
         (Scenario.thresholdWarn 50 false) = Some r
       /\ getB (data (processed r)) (1 * 4 + 3) = 255.
Proof.
  split; [lia|]. split; [lia|].
  destruct (processStencil (mkImageData 2 1 [10; 10; 10; 255; 240; 240; 240; 7])
              (Scenario.thresholdWarn 50 false)) as [r|] eqn:E;
    [|vm_compute in E; discriminate E].
  exists r. split; [reflexivity|].
  assert (Hw : 0 < width (mkImageData 2 1 [10; 10; 10; 255; 240; 240; 240; 7]))
    by (simpl; lia).
  assert (Hh : 0 < height (mkImageData 2 1 [10; 10; 10; 255; 240; 240; 240; 7]))
    by (simpl; lia).
  destruct (output_is_binary _ _ r Hw Hh E) as (_ & _ & _ & Hpix).
  apply (Hpix 1). simpl. lia.
Defined.

(** The alpha channel of the input is never read: two images of the same
    size that agree on every red, green and blue byte give the same
    result. *)
Theorem alpha_is_ignored (img1 img2 : ImageData) (s : StencilSettings) :
  width img1 = width img2 -> height img1 = height img2 ->
  SameRGB (data img1) (data img2) ->
  processStencil img1 s = processStencil img2 s.
Proof.
  intros Hw Hh Hrgb.
  assert (Hg : forall cf br,
            grayscale cf br (data img1) = grayscale cf br (data img2)).
  { intros cf br. induction Hrgb; simpl; [reflexivity|]. now rewrite IHHrgb. }
  unfold processStencil, grayBufferOf. rewrite Hg, Hw, Hh.
  destruct (smooth s (width img2) (height img2) _) as [gray|]; [|reflexivity].
  destruct (lineMask s (width img2) (height img2) gray); reflexivity.
Qed.

Lemma alpha_is_ignored_witness :
  SameRGB [10; 20; 30; 255] [10; 20; 30; 0]
  /\ processStencil (mkImageData 1 1 [10; 20; 30; 255]) DEFAULT_SETTINGS
     = processStencil (mkImageData 1 1 [10; 20; 30; 0]) DEFAULT_SETTINGS.
Proof.
  assert (H : SameRGB [10; 20; 30; 255] [10; 20; 30; 0])
    by (constructor; constructor).
  split; [exact H|].
  apply (alpha_is_ignored (mkImageData 1 1 [10; 20; 30; 255])
           (mkImageData 1 1 [10; 20; 30; 0]) DEFAULT_SETTINGS);
    [reflexivity | reflexivity | exact H].
Defined.

End OutputFacts.

(** ** Edge mode and mixed mode *)

Module EdgeFacts.
Import Stencil StencilView ArrayFacts RenderFacts StencilFacts OutputFacts.

Lemma grayBufferOf_setMode img s m :
  grayBufferOf img (setMode m s) = grayBufferOf img s.
Proof. destruct s; reflexivity. Qed.

Lemma dilate_sobel_setMode s m w h gray :
  dilate (setMode m s) w h (sobel (setMode m s) w h gray)
  = dilate s w h (sobel s w h gray).
Proof. destruct s; reflexivity. Qed.

Lemma at_map {A B} (f : A -> B) l i :
  at_ (map f l) i = option_map f (at_ l i).
Proof.
  unfold at_. destruct (i <? 0); [reflexivity|]. apply nth_error_map.
Qed.

(** With the invert flag off, every pixel painted as a line in edge mode is
    painted as a line in mixed mode, all other settings and the image being
    the same; mixed mode returns whenever edge mode does. *)
Theorem mixed_contains_edge (img : ImageData) (s : StencilSettings)
    (edgeLines : list bool) :
  invert s = false ->
  classify img (setMode Edge s) = Some edgeLines ->
  exists mixedLines,
    classify img (setMode Mixed s) = Some mixedLines
    /\ length mixedLines = length edgeLines
    /\ forall i, at_ edgeLines i = Some true -> at_ mixedLines i = Some true.
Proof.
  intros Hinv. unfold classify. rewrite !grayBufferOf_setMode.
  destruct (grayBufferOf img s) as [gray|]; [|discriminate].
  unfold lineMask.
  replace (mode (setMode Edge s)) with Edge by (destruct s; reflexivity).
  replace (mode (setMode Mixed s)) with Mixed by (destruct s; reflexivity).
  rewrite !dilate_sobel_setMode.
  destruct (dilate s (width img) (height img) _) as [dil|]; [|discriminate].
  simpl. intros H. injection H as <-.
  eexists. split; [reflexivity|]. split; [now rewrite !length_map|].
  intros i. rewrite !map_map, !at_map.
  destruct (at_ (zrange 0 (width img * height img)) i) as [j|];
    [|discriminate].
  simpl. unfold applyInvert, edgeIsLine.
  replace (invert (setMode Edge s)) with false
    by (destruct s; simpl in *; congruence).
  replace (invert (setMode Mixed s)) with false
    by (destruct s; simpl in *; congruence).
  replace (mode (setMode Edge s)) with Edge by (destruct s; reflexivity).
  replace (mode (setMode Mixed s)) with Mixed by (destruct s; reflexivity).
  replace (threshold (setMode Mixed s)) with (threshold (setMode Edge s))
    by (destruct s; reflexivity).
  intros H. injection H as ->. reflexivity.
Qed.

Lemma mixed_contains_edge_witness :
  let img := Scenario.grays 3 3 [0; 200; 255; 0; 200; 255; 0; 200; 255] in
  let s := mkSettings 0 0 80 1 30 0 Edge false false "#000000" false in
  invert s = false
  /\ exists edgeLines mixedLines,
       classify img (setMode Edge s) = Some edgeLines
       /\ at_ edgeLines 4 = Some true
       /\ classify img (setMode Mixed s) = Some mixedLines
       /\ at_ mixedLines 4 = Some true.
Proof.
  cbn zeta. split; [reflexivity|].
  set (img := Scenario.grays 3 3 [0; 200; 255; 0; 200; 255; 0; 200; 255]).
  set (s := mkSettings 0 0 80 1 30 0 Edge false false "#000000" false).
  assert (E : classify img (setMode Edge s)
              = Some [false; false; false; false; true; false; false;
                      false; false])
    by (vm_compute; reflexivity).
  destruct (mixed_contains_edge img s _ eq_refl E)
    as (mixedLines & Hm & _ & Hincl).
  eexists _, mixedLines. split; [exact E|].
  split; [reflexivity|]. split; [exact Hm|].
  apply Hincl. reflexivity.
Defined.

Lemma threshold_nonneg s :
  PrimFloat.leb 0 (detail s) = true -> PrimFloat.ltb (threshold s) 0 = false.
Proof.
  intros H. apply FloatOrder.leb_ltb_false.
  pose proof (Rounding.mul_mono_l 2.55%float 0%float (detail s)
                5742089524897382 (-51) eq_refl eq_refl H) as Hm.
  exact Hm.
Qed.

(** The Sobel pass leaves the outer ring of pixels at magnitude 0. *)
Lemma sobel_border s w h gray y x :
  0 <= y < h -> 0 <= x < w ->
  y = 0 \/ y = h - 1 \/ x = 0 \/ x = w - 1 ->
  getF (sobel s w h gray) (y * w + x) = 0%float.
Proof.
  intros Hy Hx Hb. unfold getF, at_.
  destruct (Z.ltb_spec (y * w + x) 0); [nia|].
  unfold sobel. rewrite nth_error_map, pixels_nth by assumption. simpl.
  destruct (Z.leb_spec 1 y), (Z.ltb_spec y (h - 1)), (Z.leb_spec 1 x),
    (Z.ltb_spec x (w - 1)); simpl; try reflexivity; lia.
Qed.

(** In edge mode without dilation (thickness at most 1), with a detail of
    at least 0 and the invert flag off, every pixel of the outer ring of the
    output is white: an image less than three pixels wide or high comes
    out white everywhere. *)
Theorem edge_mode_border_is_white (img : ImageData) (s : StencilSettings)
    (r : StencilResult) (y x : Z) :
  mode s = Edge -> PrimFloat.ltb 1 (thickness s) = false ->
  PrimFloat.leb 0 (detail s) = true -> invert s = false ->
  processStencil img s = Some r ->
  0 <= y < height img -> 0 <= x < width img ->
  y = 0 \/ y = height img - 1 \/ x = 0 \/ x = width img - 1 ->
  pixelOf (data (processed r)) (y * width img + x) = whitePixel.
Proof.
  intros Hmode Hthick Hdetail Hinv Hr Hy Hx Hb.
  pose proof Hr as Hr'. rewrite processStencil_classify in Hr'.
  destruct (classify img s) as [isLine|] eqn:Hc; [|discriminate Hr'].
  clear Hr'.
  rewrite (output_pixel img s r isLine y x Hr Hc Hy Hx).
  set (rx := if flipX s then width img - 1 - x else x).
  assert (Hrx : 0 <= rx < width img) by (unfold rx; destruct (flipX s); lia).
  assert (Hbr : y = 0 \/ y = height img - 1 \/ rx = 0 \/ rx = width img - 1)
    by (unfold rx; destruct (flipX s); lia).
  assert (Hline : nth (Z.to_nat (y * width img + rx)) isLine false = false).
  { unfold classify in Hc.
    destruct (grayBufferOf img s) as [gray|]; [|discriminate Hc].
    unfold lineMask, dilate in Hc. rewrite Hmode, Hthick in Hc.
    simpl in Hc. injection Hc as <-.
    rewrite map_map.
    assert (Hj : (Z.to_nat (y * width img + rx)
                  < length (zrange 0 (width img * height img)))%nat)
      by (rewrite zrange_length; nia).
    rewrite (nth_indep _ false
               (applyInvert s
                  (edgeIsLine s (sobel s (width img) (height img) gray)
                     gray 0))) by (now rewrite length_map).
    rewrite (map_nth (fun i => applyInvert s
               (edgeIsLine s (sobel s (width img) (height img) gray) gray i))
               (zrange 0 (width img * height img)) 0).
    assert (Hn : nth (Z.to_nat (y * width img + rx))
                   (zrange 0 (width img * height img)) 0
                 = y * width img + rx).
    { apply nth_error_nth.
      rewrite zrange_nth by (rewrite zrange_length in Hj; exact Hj).
      f_equal. nia. }
    rewrite Hn. unfold applyInvert, edgeIsLine. rewrite Hinv, Hmode.
    rewrite sobel_border by assumption.
    now apply threshold_nonneg. }
  rewrite Hline. reflexivity.
Qed.

Lemma edge_mode_border_is_white_witness :
  mode (Presets.applyProPreset Presets.dotwork DEFAULT_SETTINGS) = Edge
  /\ PrimFloat.ltb 1 (thickness (Presets.applyProPreset Presets.dotwork
                                   DEFAULT_SETTINGS)) = false
  /\ exists r,
       processStencil (mkImageData 2 1 [10; 10; 10; 255; 240; 240; 240; 255])
         (Presets.applyProPreset Presets.dotwork DEFAULT_SETTINGS) = Some r
       /\ pixelOf (data (processed r)) (0 * 2 + 1) = whitePixel.
Proof.
  split; [reflexivity|]. split; [reflexivity|].
  destruct (processStencil
              (mkImageData 2 1 [10; 10; 10; 255; 240; 240; 240; 255])
              (Presets.applyProPreset Presets.dotwork DEFAULT_SETTINGS))
    as [r|] eqn:E; [|vm_compute in E; discriminate E].
  exists r. split; [reflexivity|].
  apply (edge_mode_border_is_white
           (mkImageData 2 1 [10; 10; 10; 255; 240; 240; 240; 255])
           (Presets.applyProPreset Presets.dotwork DEFAULT_SETTINGS) r 0 1);
    try reflexivity; try exact E; simpl; lia.
Defined.

End EdgeFacts.

(** ** The parts of segmentImage *)

Module PartFacts.
Import Segment SegmentFacts.

(** For a canvas of at least one pixel each way and a grid of at most 51
    rows and 51 columns, every part that [segmentImage] returns is a
    rectangle of at least one pixel each way that lies inside the source
    canvas. *)
Theorem parts_inside_canvas (canvas : HTMLCanvasElement) (rows cols : Z)
    (parts : list Part) (pt : Part) :
  1 <= canvasWidth canvas -> 1 <= canvasHeight canvas ->
  rows <= 51 -> cols <= 51 ->
  segmentImage canvas rows cols = Returned parts -> In pt parts ->
  (0 <= partX pt /\ 1 <= partW pt
   /\ partX pt + partW pt <= canvasWidth canvas)
  /\ (0 <= partY pt /\ 1 <= partH pt
      /\ partY pt + partH pt <= canvasHeight canvas).
Proof.
  intros HW HH Hrows Hcols Hret Hin.
  apply (segmentImage_In _ _ _ _ _ Hret) in Hin
    as (_ & r & c & Hr & Hc & ->).
  unfold part. cbn [partX partY partW partH].
  destruct (ceilDiv_bounds (canvasWidth canvas) cols HW ltac:(lia))
    as [Hsw _].
  destruct (ceilDiv_bounds (canvasHeight canvas) rows HH ltac:(lia))
    as [Hsh _].
  assert (Hupw : cols * (ceilDiv (canvasWidth canvas) cols - 1)
                 < canvasWidth canvas).
  { unfold ceilDiv.
    pose proof (Z.div_mod (- canvasWidth canvas) cols ltac:(lia)).
    pose proof (Z.mod_pos_bound (- canvasWidth canvas) cols ltac:(lia)).
    nia. }
  assert (Huph : rows * (ceilDiv (canvasHeight canvas) rows - 1)
                 < canvasHeight canvas).
  { unfold ceilDiv.
    pose proof (Z.div_mod (- canvasHeight canvas) rows ltac:(lia)).
    pose proof (Z.mod_pos_bound (- canvasHeight canvas) rows ltac:(lia)).
    nia. }
  set (sw := ceilDiv (canvasWidth canvas) cols) in *.
  set (sh := ceilDiv (canvasHeight canvas) rows) in *.
  unfold overlap.
  assert (c * sw < canvasWidth canvas + 50) by nia.
  assert (r * sh < canvasHeight canvas + 50) by nia.
  destruct (0 <? c) eqn:Ec, (c <? cols - 1), (0 <? r) eqn:Er,
    (r <? rows - 1);
    try apply Z.ltb_ge in Ec; try apply Z.ltb_ge in Er; lia.
Qed.

Lemma parts_inside_canvas_witness :
  1 <= 100 /\ 1 <= 80 /\ 2 <= 51 /\ 3 <= 51
  /\ exists parts,
       segmentImage (mkCanvas 100 80 true) 2 3 = Returned parts
       /\ In (part 100 80 2 3 1 2) parts
       /\ 1 <= partW (part 100 80 2 3 1 2)
       /\ partX (part 100 80 2 3 1 2) + partW (part 100 80 2 3 1 2) <= 100.
Proof.
  repeat (split; [lia|]).
  pose proof (segmentImage_returns 100 80 2 3 ltac:(lia) ltac:(lia))
    as Hret.
  eexists. split; [exact Hret|].
  assert (Hin : In (part 100 80 2 3 1 2)
                  (flat_map (fun r => map (fun c => part 100 80 2 3 r c)
                                        (zrange 0 3)) (zrange 0 2))).
  { apply (segmentImage_In _ _ _ _ _ Hret). split; [reflexivity|].
    exists 1, 2. repeat split; lia. }
  split; [exact Hin|].
  assert (HW : 1 <= canvasWidth (mkCanvas 100 80 true)) by (simpl; lia).
  assert (HH : 1 <= canvasHeight (mkCanvas 100 80 true)) by (simpl; lia).
  assert (Hrows : 2 <= 51) by lia.
  assert (Hcols : 3 <= 51) by lia.
  destruct (parts_inside_canvas (mkCanvas 100 80 true) 2 3 _
              (part 100 80 2 3 1 2) HW HH Hrows Hcols Hret Hin)
    as [(_ & Hw & Hx) _].
  split; [exact Hw | exact Hx].
Defined.

(** Beyond 51 columns the last parts leave the canvas: on a canvas one
    pixel wide, 52 columns give a last part of width 0 and 60 columns one
    of width -8. *)
Lemma wide_grid_leaves_canvas :
  partW (part 1 1 1 52 0 51) = 0 /\ partW (part 1 1 1 60 0 59) = -8.
Proof. split; reflexivity. Qed.

Lemma axis_band size count k p :
  1 <= size -> 0 <= k -> k + 1 < count -> 0 <= p < size ->
  (k + 1) * ceilDiv size count - overlap <= p
    < (k + 1) * ceilDiv size count + overlap ->
  let seg := ceilDiv size count in
  let extent := fun j =>
    let x := Z.max 0 (j * seg - (if 0 <? j then overlap else 0)) in
    (x, Z.min (size - x)
          (seg + (if 0 <? j then overlap else 0)
           + (if j <? count - 1 then overlap else 0))) in
  (fst (extent k) <= p < fst (extent k) + snd (extent k))
  /\ (fst (extent (k + 1)) <= p
      < fst (extent (k + 1)) + snd (extent (k + 1))).
Proof.
  intros Hsize Hk Hk1 Hp Hband. cbn zeta. cbn [fst snd].
  destruct (ceilDiv_bounds size count Hsize ltac:(lia)) as [Hs Hcov].
  set (seg := ceilDiv size count) in *. unfold overlap in *.
  destruct (Z.ltb_spec 0 k), (Z.ltb_spec k (count - 1)),
    (Z.ltb_spec 0 (k + 1)), (Z.ltb_spec (k + 1) (count - 1));
    try lia; try nia;
    assert (count = k + 2) by lia; subst count; nia.
Qed.

(** Around every inner vertical cut, the 50 columns before it and the 50
    columns after it (as far as they lie on the canvas) belong to the source
    rectangles of both neighbouring parts; likewise for rows. *)
Theorem neighbours_share_band (width height rows cols r c p : Z) :
  1 <= width -> 1 <= height ->
  0 <= r -> 0 <= c ->
  0 <= p ->
  let left := part width height rows cols r c in
  let right := part width height rows cols r (c + 1) in
  let upper := part width height rows cols r c in
  let lower := part width height rows cols (r + 1) c in
  (c + 1 < cols -> p < width ->
   (c + 1) * ceilDiv width cols - overlap <= p
     < (c + 1) * ceilDiv width cols + overlap ->
   (partX left <= p < partX left + partW left)
   /\ (partX right <= p < partX right + partW right))
  /\ (r + 1 < rows -> p < height ->
      (r + 1) * ceilDiv height rows - overlap <= p
        < (r + 1) * ceilDiv height rows + overlap ->
      (partY upper <= p < partY upper + partH upper)
      /\ (partY lower <= p < partY lower + partH lower)).
Proof.
  intros HW HH Hr Hc Hp. cbn zeta.
  unfold part. cbn [partX partY partW partH].
  split.
  - intros Hc1 Hpw Hband.
    exact (axis_band width cols c p HW Hc Hc1 (conj Hp Hpw) Hband).
  - intros Hr1 Hph Hband.
    exact (axis_band height rows r p HH Hr Hr1 (conj Hp Hph) Hband).
Qed.

Lemma neighbours_share_band_witness :
  1 <= 300 /\ 1 <= 200 /\ 0 <= 0 /\ 0 <= 60
  /\ (partX (part 300 200 2 3 0 0) <= 60
      < partX (part 300 200 2 3 0 0) + partW (part 300 200 2 3 0 0))
  /\ (partX (part 300 200 2 3 0 1) <= 60
      < partX (part 300 200 2 3 0 1) + partW (part 300 200 2 3 0 1)).
Proof.
  repeat (split; [lia|]).
  destruct (neighbours_share_band 300 200 2 3 0 0 60) as [Hcols _];
    try lia.
  apply Hcols; [lia | lia | vm_compute; split; [discriminate | reflexivity]].
Defined.

End PartFacts.

(** ** The names and the number of the exported files *)

Module NameFacts.
Import BoardExport ArrayFacts.

Lemma decimal_inj a b : 0 <= a -> 0 <= b -> decimal a = decimal b -> a = b.
Proof.
  unfold decimal. intros Ha Hb E.
  assert (Hn : forall n, N.to_uint n <> Decimal.Nil).
  { intros [|p]; [discriminate|].
    apply DecimalPos.Unsigned.to_uint_nonnil. }
  pose proof (NilZero.usu _ (Hn (Z.to_N a))) as Ea.
  pose proof (NilZero.usu _ (Hn (Z.to_N b))) as Eb.
  rewrite E in Ea. rewrite Ea in Eb. injection Eb as Eb.
  apply DecimalN.Unsigned.to_uint_inj in Eb. lia.
Qed.

Lemma append_inj_l p s t : (p ++ s)%string = (p ++ t)%string -> s = t.
Proof.
  induction p as [|a p IH]; simpl; intros H; [exact H|].
  injection H as H. auto.
Qed.

Lemma length_append s t :
  String.length (s ++ t) = (String.length s + String.length t)%nat.
Proof. induction s as [|a s IH]; simpl; [reflexivity | now rewrite IH]. Qed.

Lemma append_inj_r q s t : (s ++ q)%string = (t ++ q)%string -> s = t.
Proof.
  revert t. induction s as [|a s IH]; intros [|b t]; simpl; intros H.
  - reflexivity.
  - apply (f_equal String.length) in H. simpl in H.
    rewrite length_append in H. lia.
  - apply (f_equal String.length) in H. simpl in H.
    rewrite length_append in H. lia.
  - injection H as -> H. f_equal. auto.
Qed.

Lemma NoDup_map_in {A B} (f : A -> B) l :
  (forall a b, In a l -> In b l -> f a = f b -> a = b) ->
  NoDup l -> NoDup (map f l).
Proof.
  induction l as [|x l IH]; simpl; intros Hinj H; [constructor|].
  inversion H as [|? ? Hnotin Hrest]; subst. constructor.
  - intros Hin. apply in_map_iff in Hin as (y & E & Hy).
    apply Hnotin. rewrite (Hinj x y); auto.
  - apply IH; auto.
Qed.

Lemma zrange_NoDup lo hi : NoDup (zrange lo hi).
Proof.
  unfold zrange. apply NoDup_map_in; [|apply seq_NoDup].
  intros a b _ _ H. lia.
Qed.

Lemma numbered_suffixes (f : Z -> string -> CropCall) n :
  (forall i s, suffix (f i s) = s) ->
  NoDup (map suffix (map (fun i => f i (decimal (i + 1))) (zrange 0 n))).
Proof.
  intros Hf. rewrite map_map.
  rewrite (map_ext _ (fun i => decimal (i + 1))) by (intros; apply Hf).
  apply NoDup_map_in; [|apply zrange_NoDup].
  intros a b Ha Hb E. apply zrange_In in Ha, Hb.
  apply decimal_inj in E; lia.
Qed.

Lemma suffixes_distinct boardMode splitMode parts :
  NoDup (map suffix (cropCalls boardMode splitMode parts)).
Proof.
  assert (Hq : forall a b c d e f g h i j k l m n o p : float,
            NoDup (map suffix
              [mkCrop a b c d "1_TopLeft"; mkCrop e f g h "2_TopRight";
               mkCrop i j k l "3_BottomLeft";
               mkCrop m n o p "4_BottomRight"])).
  { intros. simpl. repeat constructor; simpl; intuition discriminate. }
  unfold cropCalls.
  destruct boardMode; [destruct splitMode|]; try apply Hq.
  - apply (numbered_suffixes
             (fun i s => mkCrop _ _ _ _ s)). reflexivity.
  - apply (numbered_suffixes
             (fun i s => mkCrop _ _ _ _ s)). reflexivity.
Qed.

Lemma crop_name readBack call n :
  In n (map fileName (crop readBack call)) ->
  n = ("Segment_" ++ suffix call ++ ".png")%string.
Proof.
  unfold crop. destruct (readBack call) as [data|]; [|intros []].
  destruct (hasContent data); [|intros []].
  simpl. intros [<-|[]]. reflexivity.
Qed.

Lemma crop_NoDup readBack call : NoDup (map fileName (crop readBack call)).
Proof.
  unfold crop. destruct (readBack call) as [data|]; [|constructor].
  destruct (hasContent data); [|constructor].
  simpl. repeat constructor. intros [].
Qed.

Lemma crop_length readBack call : (length (crop readBack call) <= 1)%nat.
Proof.
  unfold crop. destruct (readBack call) as [data|]; [|simpl; lia].
  destruct (hasContent data); simpl; lia.
Qed.

Lemma names_NoDup readBack calls :
  NoDup (map suffix calls) ->
  NoDup (map fileName (flat_map (crop readBack) calls)).
Proof.
  induction calls as [|call calls IH]; simpl; [constructor|].
  intros H. inversion H as [|? ? Hnotin Hrest]; subst.
  rewrite map_app.
  assert (Hsplit : forall (l1 l2 : list string),
            NoDup l1 -> NoDup l2 ->
            (forall x, In x l1 -> ~ In x l2) -> NoDup (l1 ++ l2)).
  { intros l1. induction l1 as [|x l1 IH1]; simpl; intros l2 H1 H2 Hd;
      [exact H2|].
    inversion H1; subst. constructor.
    - rewrite in_app_iff. intros [Hin|Hin]; [contradiction|].
      exact (Hd x (or_introl eq_refl) Hin).
    - apply IH1; auto. }
  apply Hsplit; [apply crop_NoDup | auto |].
  intros n Hn Hin. apply crop_name in Hn. subst n.
  apply in_map_iff in Hin as (f & Hname & Hf).
  apply in_flat_map in Hf as (call' & Hcall' & Hf).
  assert (Hn' : In (fileName f) (map fileName (crop readBack call')))
    by (apply in_map; exact Hf).
  apply crop_name in Hn'. rewrite Hn' in Hname.
  apply append_inj_l, append_inj_r in Hname.
  apply Hnotin. rewrite <- Hname. apply in_map. exact Hcall'.
Qed.

(** The files of one export carry pairwise different download names,
    whatever the board, the split mode, the number of parts and the
    content of the tiles. *)
Theorem export_names_distinct (readBack : CropCall -> option (list Z))
    (boardMode : BoardMode) (splitMode : SplitMode) (parts : Z) :
  NoDup (map fileName (segmentsOf readBack boardMode splitMode parts)).
Proof. apply names_NoDup, suffixes_distinct. Qed.

Lemma quadrants_read boardMode splitMode parts call :
  boardMode = poster_2x2 \/ splitMode = quadrant ->
  In call (cropCalls boardMode splitMode parts) -> readThrows call = false.
Proof.
  intros Hq Hin.
  assert (Hall : forallb (fun c => negb (readThrows c))
                   (cropCalls boardMode splitMode parts) = true).
  { destruct Hq as [-> | ->]; [|destruct boardMode];
      vm_compute; reflexivity. }
  rewrite forallb_forall in Hall. apply Hall in Hin.
  now apply negb_true_iff.
Qed.

(** Up to 3300 parts every strip of the tabloid board is at least one
    export pixel wide and high. *)
Lemma strips_read splitMode parts call :
  splitMode <> quadrant -> parts <= 3300 ->
  In call (cropCalls tabloid splitMode parts) -> readThrows call = false.
Proof.
  intros Hs Hparts Hin.
  assert (Hv : forallb (fun p =>
                 negb (readThrows
                         (mkCrop 0 0 (BOARD_WIDTH tabloid / Js.ofZ p)
                            (BOARD_HEIGHT tabloid) "")))
                 (zrange 1 3301) = true)
    by (vm_compute; reflexivity).
  assert (Hh : forallb (fun p =>
                 negb (readThrows
                         (mkCrop 0 0 (BOARD_WIDTH tabloid)
                            (BOARD_HEIGHT tabloid / Js.ofZ p) "")))
                 (zrange 1 3301) = true)
    by (vm_compute; reflexivity).
  rewrite forallb_forall in Hv, Hh.
  unfold cropCalls in Hin.
  destruct splitMode; try congruence;
    apply in_map_iff in Hin as (i & <- & Hi); apply zrange_In in Hi;
    [specialize (Hv parts) | specialize (Hh parts)];
    apply negb_true_iff; [apply Hv | apply Hh]; apply zrange_In; lia.
Qed.

(** No export gives more files than it cuts tiles.  Four tiles are cut in
    quadrant mode and, whatever the split mode and the number of parts, on
    the poster board; on the tabloid board the vertical and horizontal
    modes with at most 3300 parts cut [parts] tiles, none when [parts] is
    below one.  In all these cases every tile is at least one export pixel
    wide and high, so that reading it back does not throw.  With [parts]
    below one the export ends in the no-content alert. *)
Theorem export_file_count (readBack : CropCall -> option (list Z))
    (boardMode : BoardMode) (splitMode : SplitMode) (parts : Z) :
  let calls := cropCalls boardMode splitMode parts in
  let segments := segmentsOf readBack boardMode splitMode parts in
  (length segments <= length calls)%nat
  /\ (boardMode = poster_2x2 \/ splitMode = quadrant ->
      length calls = 4%nat
      /\ forall call, In call calls -> readThrows call = false)
  /\ (boardMode = tabloid -> splitMode <> quadrant -> parts <= 3300 ->
      Z.of_nat (length calls) = Z.max 0 parts
      /\ forall call, In call calls -> readThrows call = false)
  /\ (boardMode = tabloid -> splitMode <> quadrant -> parts <= 0 ->
      performExport readBack true boardMode splitMode parts
      = Alerted noContentMessage).
Proof.
  cbn zeta.
  assert (Hcount : boardMode = tabloid -> splitMode <> quadrant ->
            Z.of_nat (length (cropCalls boardMode splitMode parts))
            = Z.max 0 parts).
  { intros -> Hs. unfold cropCalls.
    destruct splitMode; try congruence;
      rewrite length_map, zrange_length; lia. }
  split; [|split; [|split]].
  - clear Hcount. unfold segmentsOf.
    induction (cropCalls boardMode splitMode parts) as [|call calls IH];
      simpl; [lia|].
    rewrite length_app. pose proof (crop_length readBack call). lia.
  - intros Hq. split.
    + destruct Hq as [-> | ->]; [reflexivity|].
      destruct boardMode; reflexivity.
    + intros call. now apply quadrants_read.
  - intros Hb Hs Hp. split; [now apply Hcount|].
    subst boardMode. intros call. now apply strips_read.
  - intros Hb Hs Hp. specialize (Hcount Hb Hs).
    unfold performExport, segmentsOf. simpl.
    destruct (cropCalls boardMode splitMode parts); [reflexivity|].
    simpl in Hcount. lia.
Qed.

Lemma export_file_count_witness :
  tabloid = tabloid /\ vertical <> quadrant /\ 3 <= 3300 /\ 0 <= 0
  /\ Z.of_nat (length (cropCalls tabloid vertical 3)) = Z.max 0 3
  /\ (forall call, In call (cropCalls tabloid vertical 3) ->
      readThrows call = false)
  /\ performExport (fun _ => Some (repeat 0 400)) true tabloid vertical 0
     = Alerted noContentMessage.
Proof.
  split; [reflexivity|]. split; [discriminate|]. split; [lia|].
  split; [lia|].
  destruct (export_file_count (fun _ => Some (repeat 0 400))
              tabloid vertical 3) as (_ & _ & Hstrips & _).
  destruct (export_file_count (fun _ => Some (repeat 0 400))
              tabloid vertical 0) as (_ & _ & _ & Halert).
  destruct Hstrips as [Hlen Hread]; [reflexivity | discriminate | lia |].
  split; [exact Hlen|]. split; [exact Hread|].
  apply Halert; [reflexivity | discriminate | lia].
Defined.

(** With 3301 vertical parts a strip of the tabloid board is less than one
    export pixel wide: reading any of them back throws. *)
Lemma narrow_strip_throws call :
  In call (cropCalls tabloid vertical 3301) -> readThrows call = true.
Proof.
  unfold cropCalls. intros Hin. apply in_map_iff in Hin as (i & <- & _).
  unfold readThrows. cbn [cropW cropH]. vm_compute. reflexivity.
Qed.

End NameFacts.

(** ** Dragging on the board and the view zoom *)

Module PointerFacts.
Import Pointer.

Lemma abs_not_negative x : (PrimFloat.abs x <? 0)%float = false.
Proof.
  rewrite ltb_spec, abs_spec.
  change (Prim2SF 0) with (S754_zero false).
  destruct (Prim2SF x) as [s|s| |s m e]; reflexivity.
Qed.

(** While a crop rectangle is drawn, every pointer move sets a rectangle
    whose width and height are not negative, on whichever side of the
    starting corner the pointer is, and leaves the image where it is. *)
Theorem crop_rect_not_negative (atan2 : float -> float -> float)
    (st : BoardState) (rectLeft rectTop : float)
    (imageWidth imageHeight : Z) (clientX clientY : float) :
  isDragging st = true -> mode st = draw_crop ->
  let st' := handlePointerMove atan2 st rectLeft rectTop imageWidth
               imageHeight clientX clientY in
  transform st' = transform st
  /\ exists r, cropRect st' = Some r
               /\ (rw r <? 0)%float = false
               /\ (rh r <? 0)%float = false.
Proof.
  intros Hdrag Hmode. cbn zeta. unfold handlePointerMove.
  rewrite Hdrag, Hmode. cbn [negb transform cropRect].
  split; [reflexivity|]. eexists. split; [reflexivity|].
  cbn [rw rh]. split; apply abs_not_negative.
Qed.

Lemma crop_rect_not_negative_witness :
  let st := mkBoardState true draw_crop (mkTransform 10 10 1 0)
              (mkTransform 10 10 1 0) (50, 60)%float (50, 60)%float None 0.6 in
  let st' := handlePointerMove (fun _ _ => 0%float) st 0 0 100 100 12 90 in
  isDragging st = true /\ mode st = draw_crop
  /\ transform st' = transform st
  /\ exists r, cropRect st' = Some r
               /\ (rw r <? 0)%float = false
               /\ (rh r <? 0)%float = false.
Proof.
  cbn zeta. split; [reflexivity|]. split; [reflexivity|].
  apply (crop_rect_not_negative (fun _ _ => 0%float)
           (mkBoardState true draw_crop (mkTransform 10 10 1 0)
              (mkTransform 10 10 1 0) (50, 60)%float (50, 60)%float None 0.6));
    reflexivity.
Defined.

(** Dragging a corner handle never sets a scale below 0.1, whatever the
    pointer position and the image size; only the scale changes: the
    position, the rotation and the crop rectangle stay. *)
Theorem scale_never_below_tenth (atan2 : float -> float -> float)
    (st : BoardState) (rectLeft rectTop : float)
    (imageWidth imageHeight : Z) (clientX clientY : float) :
  isDragging st = true -> startsWithScale (mode st) = true ->
  let st' := handlePointerMove atan2 st rectLeft rectTop imageWidth
               imageHeight clientX clientY in
  (scale (transform st') <? 0.1)%float = false
  /\ tx (transform st') = tx (transform st)
  /\ ty (transform st') = ty (transform st)
  /\ rotation (transform st') = rotation (transform st)
  /\ cropRect st' = cropRect st.
Proof.
  intros Hdrag Hmode. cbn zeta. unfold handlePointerMove.
  rewrite Hdrag. cbn [negb].
  destruct (mode st); try discriminate Hmode;
    cbn [transform cropRect scale tx ty rotation];
    (split; [apply ClampFacts.max_not_below_l | repeat split]).
Qed.

Lemma scale_never_below_tenth_witness :
  let st := mkBoardState true scale_br (mkTransform 10 10 1 0)
              (mkTransform 10 10 1 0) (50, 60)%float (0, 0)%float None 0.6 in
  let st' := handlePointerMove (fun _ _ => 0%float) st 0 0 100 100 6 6 in
  isDragging st = true /\ startsWithScale (mode st) = true
  /\ (scale (transform st') <? 0.1)%float = false.
Proof.
  cbn zeta. split; [reflexivity|]. split; [reflexivity|].
  apply (scale_never_below_tenth (fun _ _ => 0%float)
           (mkBoardState true scale_br (mkTransform 10 10 1 0)
              (mkTransform 10 10 1 0) (50, 60)%float (0, 0)%float None 0.6));
    reflexivity.
Defined.

Lemma zoomLevels_closed z :
  In z zoomLevels -> In (zoomOut z) zoomLevels /\ In (zoomIn z) zoomLevels.
Proof.
  unfold zoomLevels. intros H.
  repeat (destruct H as [<-|H];
          [split; vm_compute; repeat first [left; reflexivity | right]|]).
  destruct H.
Qed.

Lemma reachable_in_levels z : reachableZoom z -> In z zoomLevels.
Proof.
  induction 1 as [|z _ IH|z _ IH].
  - vm_compute. repeat first [left; reflexivity | right].
  - apply (zoomLevels_closed z IH).
  - apply (zoomLevels_closed z IH).
Qed.

(** However often the two zoom buttons are clicked, the zoom stays
    between 0.2 and 2 and is one of 37 values; none of these is zero or
    NaN, and the label shows a whole multiple of ten from 20 to 200 per
    cent although the zoom itself drifts off the tenths. *)
Theorem zoom_stays_in_range (z : float) :
  reachableZoom z ->
  In z zoomLevels
  /\ (0.2 <=? z)%float = true /\ (z <=? 2)%float = true
  /\ exists k, 2 <= k <= 20 /\ zoomPercent z = Some (10 * k).
Proof.
  intros H. apply reachable_in_levels in H. split; [exact H|].
  unfold zoomLevels in H.
  repeat (destruct H as [<-|H];
          [split; [reflexivity|]; split; [reflexivity|];
           match goal with
           | |- exists k, _ /\ zoomPercent ?z = _ =>
               let p := eval vm_compute in (zoomPercent z) in
               match p with
               | Some ?v =>
                   let q := eval vm_compute in (v / 10) in
                   exists q; split; [lia | vm_compute; reflexivity]
               end
           end|]).
  destruct H.
Qed.

Lemma zoom_stays_in_range_witness :
  reachableZoom (zoomIn (zoomOut initialZoom))
  /\ (0.2 <=? zoomIn (zoomOut initialZoom))%float = true
  /\ zoomPercent (zoomIn (zoomOut initialZoom)) = Some 60.
Proof.
  assert (H : reachableZoom (zoomIn (zoomOut initialZoom)))
    by (apply zoom_in, zoom_out, zoom_initial).
  split; [exact H|].
  destruct (zoom_stays_in_range _ H) as (_ & Hlo & _ & _).
  split; [exact Hlo | reflexivity].
Defined.

End PointerFacts.

(** ** The history of App.tsx *)

Module HistoryFacts.
Import History.

Section Items.
Context {Item : Type}.
Implicit Types (st : HistoryState Item) (arr : list Item).

Lemma sliceTo_prefix arr e :
  0 <= e <= Z.of_nat (length arr) ->
  sliceTo Item arr e = firstn (Z.to_nat e) arr
  /\ Z.of_nat (length (sliceTo Item arr e)) = e.
Proof.
  intros He. unfold sliceTo.
  destruct (Z.ltb_spec e 0); [lia|].
  rewrite Z.min_l by lia. split; [reflexivity|].
  rewrite length_firstn. lia.
Qed.

Lemma sliceTo_length arr e :
  (length (sliceTo Item arr e) <= length arr)%nat.
Proof. unfold sliceTo. rewrite length_firstn. lia. Qed.

Lemma at_last arr x :
  at_ (arr ++ [x]) (Z.of_nat (length (arr ++ [x])) - 1) = Some x.
Proof.
  unfold at_. rewrite length_app. simpl.
  destruct (Z.ltb_spec (Z.of_nat (length arr + 1) - 1) 0); [lia|].
  replace (Z.to_nat (Z.of_nat (length arr + 1) - 1)) with (length arr)
    by lia.
  rewrite nth_error_app2 by lia. now rewrite Nat.sub_diag.
Qed.

Lemma at_tl arr i :
  0 <= i -> at_ (tl arr) i = at_ arr (i + 1).
Proof.
  intros Hi. unfold at_.
  destruct (Z.ltb_spec i 0), (Z.ltb_spec (i + 1) 0); try lia.
  replace (Z.to_nat (i + 1)) with (S (Z.to_nat i)) by lia.
  destruct arr; [now destruct (Z.to_nat i)|reflexivity].
Qed.

Lemma at_firstn arr n i :
  0 <= i < Z.of_nat n -> at_ (firstn n arr ++ []) i = at_ arr i.
Proof.
  intros Hi. rewrite app_nil_r. unfold at_.
  destruct (Z.ltb_spec i 0); [lia|].
  rewrite nth_error_firstn.
  destruct (Nat.ltb_spec (Z.to_nat i) n); [reflexivity | lia].
Qed.

Lemma at_app_l arr rest i :
  0 <= i < Z.of_nat (length arr) -> at_ (arr ++ rest) i = at_ arr i.
Proof.
  intros Hi. unfold at_. destruct (Z.ltb_spec i 0); [lia|].
  apply nth_error_app1. lia.
Qed.

Lemma addToHistory_current st newItem :
  current (addToHistory st newItem) = Some newItem.
Proof.
  unfold current, addToHistory. cbn [history historyIndex].
  set (pre := sliceTo Item (history st) (historyIndex st + 1)).
  destruct (Z.ltb_spec 20 (Z.of_nat (length (pre ++ [newItem]))))
    as [Hlong|_]; [|apply at_last].
  destruct pre as [|a pre']; [simpl in Hlong; lia|].
  simpl tl. apply at_last.
Qed.

Lemma step_wellFormed st a : wellFormed st -> wellFormed (step st a).
Proof.
  intros [Hlen Hidx]. destruct a as [newItem|index| |]; simpl.
  - unfold wellFormed, addToHistory. cbn [history historyIndex].
    destruct (sliceTo_prefix (history st) (historyIndex st + 1)
                ltac:(lia)) as [_ Hpre].
    set (pre := sliceTo Item (history st) (historyIndex st + 1)) in *.
    assert (Hnew : Z.of_nat (length (pre ++ [newItem]))
                   = historyIndex st + 2)
      by (rewrite length_app; simpl; lia).
    destruct (Z.ltb_spec 20 (Z.of_nat (length (pre ++ [newItem])))).
    + destruct pre as [|b pre']; [simpl in *; lia|].
      simpl tl. simpl length in *. lia.
    + lia.
  - unfold restoreHistoryItem.
    destruct (Z.ltb_spec index 0),
      (Z.leb_spec (Z.of_nat (length (history st))) index);
      simpl; unfold wellFormed; simpl; lia.
  - unfold handleUndo, restoreHistoryItem.
    destruct (Z.ltb_spec 0 (historyIndex st)); [|split; assumption].
    destruct (Z.ltb_spec (historyIndex st - 1) 0),
      (Z.leb_spec (Z.of_nat (length (history st))) (historyIndex st - 1));
      simpl; unfold wellFormed; simpl; lia.
  - unfold handleRedo, restoreHistoryItem.
    destruct (Z.ltb_spec (historyIndex st)
                (Z.of_nat (length (history st)) - 1)); [|split; assumption].
    destruct (Z.ltb_spec (historyIndex st + 1) 0),
      (Z.leb_spec (Z.of_nat (length (history st))) (historyIndex st + 1));
      simpl; unfold wellFormed; simpl; lia.
Qed.

Lemma step_index st a :
  (historyIndex st = -1 -> history st = []) ->
  historyIndex (step st a) = -1 -> history (step st a) = [].
Proof.
  intros Hinv. destruct a as [newItem|index| |]; simpl.
  - unfold addToHistory. cbn [history historyIndex].
    set (l := sliceTo Item (history st) (historyIndex st + 1) ++ [newItem]).
    assert (1 <= Z.of_nat (length l))
      by (unfold l; rewrite length_app; simpl; lia).
    destruct (Z.ltb_spec 20 (Z.of_nat (length l))).
    + destruct l as [|b l']; [simpl in *; lia|]. simpl tl in *.
      simpl length in *. lia.
    + lia.
  - unfold restoreHistoryItem.
    destruct (Z.ltb_spec index 0),
      (Z.leb_spec (Z.of_nat (length (history st))) index);
      simpl; try exact Hinv; lia.
  - unfold handleUndo, restoreHistoryItem.
    destruct (Z.ltb_spec 0 (historyIndex st)); [|exact Hinv].
    destruct (Z.ltb_spec (historyIndex st - 1) 0),
      (Z.leb_spec (Z.of_nat (length (history st))) (historyIndex st - 1));
      simpl; try exact Hinv; lia.
  - unfold handleRedo, restoreHistoryItem.
    destruct (Z.ltb_spec (historyIndex st)
                (Z.of_nat (length (history st)) - 1)); [|exact Hinv].
    destruct (Z.ltb_spec (historyIndex st + 1) 0),
      (Z.leb_spec (Z.of_nat (length (history st))) (historyIndex st + 1));
      simpl; try exact Hinv; lia.
Qed.

(** From the empty history, whatever is added, restored, undone and
    redone, the history never holds more than 20 items and the index is
    never out of range: it points at an item as soon as there is one. *)
Theorem history_stays_bounded (actions : list (Action Item)) :
  let st := fold_left step actions (mkHistory [] (-1)) in
  wellFormed st
  /\ (history st = [] -> historyIndex st = -1)
  /\ (history st <> [] -> exists item, current st = Some item).
Proof.
  cbn zeta.
  assert (Hinv : forall acts st,
            wellFormed st -> (historyIndex st = -1 -> history st = []) ->
            wellFormed (fold_left step acts st)
            /\ (historyIndex (fold_left step acts st) = -1 ->
                history (fold_left step acts st) = [])).
  { induction acts as [|a acts IH]; simpl; intros st Hwf Hidx; [auto|].
    apply IH; [now apply step_wellFormed | now apply step_index]. }
  destruct (Hinv actions (mkHistory [] (-1))) as [Hwf Hidx].
  { unfold wellFormed. simpl. lia. }
  { reflexivity. }
  set (st := fold_left step actions (mkHistory [] (-1))) in *.
  split; [exact Hwf|]. destruct Hwf as [Hlen Hrange]. split.
  - intros E. rewrite E in Hrange. simpl in Hrange. lia.
  - intros Hne.
    assert (0 <= historyIndex st).
    { destruct (Z.eq_dec (historyIndex st) (-1)) as [E|E]; [|lia].
      now apply Hidx in E. }
    unfold current, at_.
    destruct (Z.ltb_spec (historyIndex st) 0); [lia|].
    destruct (nth_error (history st) (Z.to_nat (historyIndex st))) eqn:E;
      [eauto|].
    apply nth_error_None in E. lia.
Qed.

(** A new item always becomes the current one and leaves nothing to redo.
    When the index pointed at an item before, the history afterwards holds
    the items up to that index and the new one, the oldest dropped if that
    makes 21, and one undo leads back to the item that was current. *)
Theorem add_then_undo (st : HistoryState Item) (newItem : Item) :
  let st' := addToHistory st newItem in
  current st' = Some newItem
  /\ canRedo st' = false
  /\ (wellFormed st -> 0 <= historyIndex st ->
      Z.of_nat (length (history st')) = Z.min 20 (historyIndex st + 2)
      /\ canUndo st' = true
      /\ current (handleUndo st') = current st).
Proof.
  cbn zeta. split; [apply addToHistory_current|]. split.
  { unfold canRedo, addToHistory. cbn [history historyIndex].
    apply Z.ltb_irrefl. }
  intros [Hlen Hidx] Hcur.
  unfold canUndo, handleUndo, restoreHistoryItem, current, addToHistory.
  cbn [history historyIndex].
  destruct (sliceTo_prefix (history st) (historyIndex st + 1) ltac:(lia))
    as [Epre Hpre].
  set (pre := sliceTo Item (history st) (historyIndex st + 1)) in *.
  assert (Hnew : Z.of_nat (length (pre ++ [newItem]))
                 = historyIndex st + 2)
    by (rewrite length_app; simpl; lia).
  assert (Hsame : at_ (pre ++ [newItem]) (historyIndex st)
                  = at_ (history st) (historyIndex st)).
  { rewrite at_app_l by lia. rewrite Epre.
    rewrite <- (at_firstn (history st) (Z.to_nat (historyIndex st + 1)))
      by lia.
    now rewrite app_nil_r. }
  destruct (Z.ltb_spec 20 (Z.of_nat (length (pre ++ [newItem]))))
    as [Hlong|Hshort].
  - assert (Hi : historyIndex st = 19) by lia.
    assert (Htl : Z.of_nat (length (tl (pre ++ [newItem]))) = 20).
    { destruct (pre ++ [newItem]); simpl in *; lia. }
    rewrite Htl. split; [lia|]. split; [reflexivity|].
    change (0 <? 20 - 1) with true. cbn iota.
    change (20 - 1 - 1 <? 0) with false.
    change (20 <=? 20 - 1 - 1) with false. cbn [orb historyIndex history].
    rewrite at_tl by lia. rewrite <- Hsame, Hi. reflexivity.
  - rewrite Hnew. split; [lia|].
    destruct (Z.ltb_spec 0 (historyIndex st + 2 - 1)); [|lia].
    split; [reflexivity|].
    destruct (Z.ltb_spec (historyIndex st + 2 - 1 - 1) 0); [lia|].
    destruct (Z.leb_spec (historyIndex st + 2) (historyIndex st + 2 - 1 - 1));
      [lia|].
    cbn [orb historyIndex history].
    replace (historyIndex st + 2 - 1 - 1) with (historyIndex st) by lia.
    exact Hsame.
Qed.

(** Undo and redo are inverse to each other wherever they are enabled. *)
Theorem undo_redo_inverse (st : HistoryState Item) :
  wellFormed st -> 0 <= historyIndex st ->
  (canUndo st = true -> handleRedo (handleUndo st) = st)
  /\ (canRedo st = true -> handleUndo (handleRedo st) = st).
Proof.
  intros [Hlen Hidx] Hcur. destruct st as [h i]. simpl in *.
  unfold canUndo, canRedo, handleUndo, handleRedo, restoreHistoryItem.
  cbn [history historyIndex]. split; intros H; rewrite H.
  - apply Z.ltb_lt in H.
    destruct (Z.ltb_spec (i - 1) 0); [lia|].
    destruct (Z.leb_spec (Z.of_nat (length h)) (i - 1)); [lia|].
    cbn [orb history historyIndex].
    destruct (Z.ltb_spec (i - 1) (Z.of_nat (length h) - 1)); [|lia].
    destruct (Z.ltb_spec (i - 1 + 1) 0); [lia|].
    destruct (Z.leb_spec (Z.of_nat (length h)) (i - 1 + 1)); [lia|].
    cbn [orb]. f_equal. lia.
  - apply Z.ltb_lt in H.
    destruct (Z.ltb_spec (i + 1) 0); [lia|].
    destruct (Z.leb_spec (Z.of_nat (length h)) (i + 1)); [lia|].
    cbn [orb history historyIndex].
    destruct (Z.ltb_spec 0 (i + 1)); [|lia].
    destruct (Z.ltb_spec (i + 1 - 1) 0); [lia|].
    destruct (Z.leb_spec (Z.of_nat (length h)) (i + 1 - 1)); [lia|].
    cbn [orb]. f_equal. lia.
Qed.

End Items.

Lemma add_then_undo_witness :
  let st := mkHistory [1; 2; 3] 1 in
  wellFormed st /\ 0 <= historyIndex st
  /\ history (addToHistory st 7) = [1; 2; 7]
  /\ current (handleUndo (addToHistory st 7)) = current st.
Proof.
  cbn zeta.
  assert (Hwf : wellFormed (mkHistory [1; 2; 3] 1))
    by (unfold wellFormed; simpl; lia).
  split; [exact Hwf|]. split; [simpl; lia|]. split; [reflexivity|].
  apply (add_then_undo (mkHistory [1; 2; 3] 1) 7); [exact Hwf | simpl; lia].
Defined.

Lemma undo_redo_inverse_witness :
  let st := mkHistory [1; 2; 3] 1 in
  wellFormed st /\ 0 <= historyIndex st /\ canUndo st = true
  /\ handleRedo (handleUndo st) = st.
Proof.
  cbn zeta.
  assert (Hwf : wellFormed (mkHistory [1; 2; 3] 1))
    by (unfold wellFormed; simpl; lia).
  split; [exact Hwf|]. split; [simpl; lia|]. split; [reflexivity|].
  apply (undo_redo_inverse (mkHistory [1; 2; 3] 1) Hwf); [simpl; lia|].
  reflexivity.
Defined.

End HistoryFacts.

(** ** Presets and reset *)

Module PresetFacts.
Import Stencil Presets.

(** Whatever the settings were before, also with a smoothing or a
    thickness on which [processStencil] does not return, it returns on the
    settings a preset or a reset leaves.  A preset keeps the brightness,
    the invert and flip switches and the line colour; a reset keeps the
    mode and the line colour. *)
Theorem presets_make_processing_return (img : ImageData)
    (key : PresetKey) (prev : StencilSettings) :
  (exists r, processStencil img (applyProPreset key prev) = Some r)
  /\ (exists r, processStencil img (handleReset prev) = Some r)
  /\ (brightness (applyProPreset key prev) = brightness prev
      /\ invert (applyProPreset key prev) = invert prev
      /\ flipX (applyProPreset key prev) = flipX prev
      /\ lineColor (applyProPreset key prev) = lineColor prev)
  /\ (mode (handleReset prev) = mode prev
      /\ lineColor (handleReset prev) = lineColor prev).
Proof.
  split; [|split; [|split; [repeat split | split; reflexivity]]].
  - apply Clamping.processStencil_returns; destruct key; reflexivity.
  - apply Clamping.processStencil_returns;
      unfold blurReturns, dilateReturns, handleReset;
      cbn [smoothing thickness mode]; [reflexivity|].
    destruct (mode prev); reflexivity.
Qed.

End PresetFacts.

(** ** What the settings do to a call of processStencil *)

Module ProcessFacts.
Import Stencil StencilView ArrayFacts RenderFacts StencilFacts OutputFacts.

(** In threshold mode the Sobel and dilation passes are skipped: the edge
    intensity and the thickness have no effect on the result, and the call
    returns even for a thickness on which the dilation would not end. *)
Theorem threshold_mode_ignores_edge_settings (img : ImageData)
    (s : StencilSettings) (e t : float) :
  mode s = Threshold ->
  processStencil img (setEdgeIntensity e (setThickness t s))
  = processStencil img s
  /\ (blurReturns s = true -> exists r, processStencil img s = Some r).
Proof.
  intros Hmode. split.
  - destruct s as [c b ei th d sm m inv fl col warn]. simpl in Hmode.
    subst m. reflexivity.
  - intros Hb. apply Clamping.processStencil_returns; [exact Hb|].
    unfold dilateReturns. now rewrite Hmode.
Qed.

Lemma threshold_mode_ignores_edge_settings_witness :
  mode (Scenario.thresholdWarn 50 false) = Threshold
  /\ processStencil (Scenario.uniform 2 2 100)
       (setEdgeIntensity 500
          (setThickness infinity (Scenario.thresholdWarn 50 false)))
     = processStencil (Scenario.uniform 2 2 100)
         (Scenario.thresholdWarn 50 false).
Proof.
  split; [reflexivity|].
  apply (threshold_mode_ignores_edge_settings (Scenario.uniform 2 2 100)
           (Scenario.thresholdWarn 50 false) 500 infinity).
  reflexivity.
Defined.

(** On an image with at least one pixel the call fails to return exactly
    when the blur loop or the dilation loop does not end; an infinite
    smoothing is such a case in every mode, an infinite thickness in the
    edge and mixed modes. *)
Theorem no_return_exactly_when (img : ImageData) (s : StencilSettings) :
  wf_image img ->
  (processStencil img s = None
   <-> blurReturns s = false \/ dilateReturns s = false)
  /\ (smoothing s = infinity -> processStencil img s = None)
  /\ (thickness s = infinity -> mode s <> Threshold ->
      processStencil img s = None).
Proof.
  intros _.
  assert (Hiff : processStencil img s = None
                 <-> blurReturns s = false \/ dilateReturns s = false).
  { split.
    - intros Hnone.
      destruct (blurReturns s) eqn:Hb; [|auto].
      destruct (dilateReturns s) eqn:Hd; [|auto].
      destruct (Clamping.processStencil_returns img s Hb Hd) as [r Hr].
      congruence.
    - unfold blurReturns, dilateReturns, processStencil, grayBufferOf,
        smooth, lineMask, dilate.
      intros [H|H].
      + destruct (0 <? smoothing s)%float; [|discriminate H].
        destruct (Js.loopRadius (smoothing s)); [discriminate H|].
        reflexivity.
      + destruct (0 <? smoothing s)%float;
          [destruct (Js.loopRadius (smoothing s)); [|reflexivity]|];
          (destruct (mode s); [|discriminate H|];
           (destruct (1 <? thickness s)%float; [|discriminate H]);
           (destruct (Js.loopRadius (thickness s / 2)%float);
            [discriminate H|]); reflexivity). }
  split; [exact Hiff|]. split.
  - intros E. apply Hiff. left. unfold blurReturns. rewrite E. reflexivity.
  - intros E Hm. apply Hiff. right. unfold dilateReturns. rewrite E.
    destruct (mode s); [reflexivity | congruence | reflexivity].
Qed.

Lemma no_return_exactly_when_witness :
  wf_image (Scenario.uniform 1 1 255)
  /\ processStencil (Scenario.uniform 1 1 255)
       (setThickness infinity DEFAULT_SETTINGS) = None.
Proof.
  assert (Hwf : wf_image (Scenario.uniform 1 1 255)).
  { unfold wf_image, byte. simpl.
    repeat split; try lia; repeat constructor; lia. }
  split; [exact Hwf|].
  apply (no_return_exactly_when (Scenario.uniform 1 1 255)
           (setThickness infinity DEFAULT_SETTINGS) Hwf);
    [reflexivity | discriminate].
Defined.

Lemma mirror_pixels img s plain flipped y x :
  processStencil img (setFlipX false s) = Some plain ->
  processStencil img (setFlipX true s) = Some flipped ->
  0 <= y < height img -> 0 <= x < width img ->
  pixelOf (data (processed flipped)) (y * width img + x)
  = pixelOf (data (processed plain)) (y * width img + (width img - 1 - x)).
Proof.
  intros Hplain Hflip Hy Hx.
  pose proof Hplain as Hc. rewrite processStencil_classify in Hc.
  rewrite classify_setFlipX in Hc.
  destruct (classify img s) as [isLine|] eqn:Ec; [|discriminate Hc].
  assert (Ect : classify img (setFlipX true s) = Some isLine)
    by now rewrite classify_setFlipX.
  assert (Ecf : classify img (setFlipX false s) = Some isLine)
    by now rewrite classify_setFlipX.
  rewrite (output_pixel img _ flipped isLine y x Hflip Ect Hy Hx).
  rewrite (output_pixel img _ plain isLine y (width img - 1 - x) Hplain Ecf
             Hy ltac:(lia)).
  destruct s; reflexivity.
Qed.

Lemma flip_returns img s b1 b2 r :
  processStencil img (setFlipX b1 s) = Some r ->
  exists r', processStencil img (setFlipX b2 s) = Some r'.
Proof.
  rewrite !processStencil_classify, !classify_setFlipX.
  destruct (classify img s); [eauto | discriminate].
Qed.

(** The flipped output is the mirror image of the unflipped one: the call
    returns with [flipX] on exactly when it returns with it off, and then
    the pixel at [(x, y)] of the one is the pixel at [(width - 1 - x, y)]
    of the other. *)
Theorem flip_mirrors_output (img : ImageData) (s : StencilSettings) :
  0 < width img -> 0 < height img ->
  ((exists plain, processStencil img (setFlipX false s) = Some plain)
   <-> (exists flipped, processStencil img (setFlipX true s) = Some flipped))
  /\ forall plain flipped,
       processStencil img (setFlipX false s) = Some plain ->
       processStencil img (setFlipX true s) = Some flipped ->
       forall y x, 0 <= y < height img -> 0 <= x < width img ->
         pixelOf (data (processed flipped)) (y * width img + x)
         = pixelOf (data (processed plain))
             (y * width img + (width img - 1 - x)).
Proof.
  intros Hw Hh. split.
  - split; intros [r Hr]; exact (flip_returns img s _ _ r Hr).
  - intros plain flipped Hplain Hflip y x Hy Hx.
    now apply (mirror_pixels img s).
Qed.

Lemma flip_mirrors_output_witness :
  let img := mkImageData 2 1 [10; 10; 10; 255; 240; 240; 240; 255] in
  let s := Scenario.thresholdWarn 50 false in
  0 < width img /\ 0 < height img
  /\ exists plain flipped,
       processStencil img (setFlipX false s) = Some plain
       /\ processStencil img (setFlipX true s) = Some flipped
       /\ pixelOf (data (processed plain)) 1 = [255; 255; 255; 255]
       /\ pixelOf (data (processed flipped)) (0 * width img + 0)
          = pixelOf (data (processed plain))
              (0 * width img + (width img - 1 - 0)).
Proof.
  cbn zeta.
  set (img := mkImageData 2 1 [10; 10; 10; 255; 240; 240; 240; 255]).
  set (s := Scenario.thresholdWarn 50 false).
  assert (Hw : 0 < width img) by (simpl; lia).
  assert (Hh : 0 < height img) by (simpl; lia).
  split; [exact Hw|]. split; [exact Hh|].
  destruct (flip_mirrors_output img s Hw Hh) as [Hiff Hmirror].
  destruct (processStencil img (setFlipX false s)) as [plain|] eqn:E;
    [|vm_compute in E; discriminate E].
  destruct (proj1 Hiff (ex_intro _ plain eq_refl)) as [flipped Hf].
  exists plain, flipped. split; [reflexivity|]. split; [exact Hf|].
  split; [vm_compute in E; injection E as <-; reflexivity|].
  apply (Hmirror plain flipped eq_refl Hf 0 0); simpl; lia.
Defined.

End ProcessFacts.
